(** * The config-file database provider of DevDb, embedded and verified

    Source: [src/providers/config-file-provider.ts].  The provider object
    [ConfigFileProvider] holds two mutable fields, [engine] and [cache], and
    three asynchronous methods: [boot], [canBeUsedInCurrentWorkspace] and
    [getDatabaseEngine].  Everything awaited by these methods lives in other
    modules (the config reader, the connector, the three engine classes, the
    editor window); those collaborators are gathered in a [Host] record and
    every awaited call is written to an event log, so that what the provider
    asks of the outside world can be observed and reasoned about. *)

From Stdlib Require Import String List Bool Arith Lia ZArith.
Import ListNotations.
Open Scope string_scope.
Open Scope list_scope.

(* ===================================================================== *)
(** ** Data model *)
(* ===================================================================== *)

(** [port: string | number] of a server descriptor. *)
Inductive Port : Type :=
| PortNumber (n : Z)
| PortString (s : string).

(** One element of the array read from the config file.  At run time it is a
    JSON object: the tag [type] is an arbitrary string and [name] may be
    missing, which is why the source tests [!config.name].  The fields of the
    sqlite shape and of the server shape are kept side by side; a branch only
    reads the ones of its own shape. *)
Record Config : Type := {
  type : string;
  name : option string;
  path : string;
  host : string;
  port : Port;
  username : string;
  password : string;
  database : string
}.

(** The connection handle returned by [getConnectionFor]. *)
Record Sequelize : Type := { handle : nat }.

(** The three engine classes the provider instantiates, with the argument
    given to the constructor. *)
Inductive EngineClass : Type :=
| SqliteJsEngine (path : string)
| MysqlEngine (connection : Sequelize)
| PostgresEngine (connection : Sequelize).

(** An engine object.  [ref] is the identity of the object: two engines are
    the same instance exactly when their references agree. *)
Record DatabaseEngine : Type := {
  ref : nat;
  class : EngineClass
}.

(** [EngineProviderCache]: one validated connection ([id], [description],
    [details], [engine] in the source).  [id] and [description] of a server
    entry are the descriptor's [name], hence optional here. *)
Record EngineProviderCache : Type := {
  cache_id : option string;
  cache_description : option string;
  cache_details : option string;
  cache_engine : DatabaseEngine
}.

(** [EngineProviderOption]: only [option.option.id] is read. *)
Record EngineProviderOption : Type := { option_id : string }.

(** Every awaited call to a collaborator. *)
Inductive Event : Type :=
| EvGetConfigFileContent
| EvShowErrorMessage (message : string)
| EvGetConnectionFor (dialect host : string) (port : Port)
                     (username password database : string)
| EvBoot (engine : nat)
| EvIsOkay (engine : nat).

(** The collaborators, as seen during one call of the provider. *)
Record Host : Type := {
  (** [getConfigFileContent()]: [None] is [undefined]. *)
  getConfigFileContent : option (list Config);
  (** [brief(s)] of [services/string]. *)
  brief : string -> string;
  (** [getConnectionFor(dialect, host, port, username, password, database)]. *)
  getConnectionFor :
    string -> string -> Port -> string -> string -> string -> option Sequelize;
  (** [isOkay()] of a booted [SqliteJsEngine] built on the path. *)
  sqlite_isOkay : string -> bool;
  (** whether [getDatabase()] of that engine is truthy. *)
  sqlite_getDatabase : string -> bool;
  (** [isOkay()] of a [MysqlEngine] built on the handle. *)
  mysql_isOkay : Sequelize -> bool;
  (** whether its [sequelize] field is truthy. *)
  mysql_sequelize : Sequelize -> bool;
  (** the same two for [PostgresEngine]. *)
  postgres_isOkay : Sequelize -> bool;
  postgres_sequelize : Sequelize -> bool
}.

(** The provider's two mutable fields, together with the event log and the
    next unused object reference. *)
Record State : Type := {
  engine : option DatabaseEngine;
  cache : option (list EngineProviderCache);
  events : list Event;
  next_ref : nat
}.

(** The provider as the module exports it: [engine: undefined],
    [cache: undefined]. *)
Definition ConfigFileProvider : State :=
  {| engine := None; cache := None; events := []; next_ref := 0 |}.

(* ===================================================================== *)
(** ** A state monad with exceptions *)
(* ===================================================================== *)

(** How a call ends: with a value, or with a thrown error. *)
Inductive Completion (A : Type) : Type :=
| Normal (value : A)
| Throw (error : string).
Arguments Normal {A} value.
Arguments Throw {A} error.

Definition M (A : Type) : Type := State -> Completion A * State.

Definition ret {A} (a : A) : M A := fun s => (Normal a, s).

Definition bind {A B} (m : M A) (k : A -> M B) : M B :=
  fun s =>
    match m s with
    | (Normal a, s') => k a s'
    | (Throw e, s') => (Throw e, s')
    end.

Declare Scope provider_scope.
Delimit Scope provider_scope with provider.
Notation "x <- m ;; k" := (bind m (fun x => k))
  (at level 61, m at next level, right associativity) : provider_scope.
Notation "m ;; k" := (bind m (fun _ => k))
  (at level 61, right associativity) : provider_scope.
Open Scope provider_scope.

Definition get : M State := fun s => (Normal s, s).

Definition throw {A} (e : string) : M A := fun s => (Throw e, s).

Definition emit (ev : Event) : M unit :=
  fun s =>
    (Normal tt,
     {| engine := engine s; cache := cache s;
        events := events s ++ [ev]; next_ref := next_ref s |}).

Definition set_cache (c : option (list EngineProviderCache)) : M unit :=
  fun s =>
    (Normal tt,
     {| engine := engine s; cache := c;
        events := events s; next_ref := next_ref s |}).

Definition set_engine (e : option DatabaseEngine) : M unit :=
  fun s =>
    (Normal tt,
     {| engine := e; cache := cache s;
        events := events s; next_ref := next_ref s |}).

(** [new C(arg)]: a new object, with a reference no other object has. *)
Definition new (c : EngineClass) : M DatabaseEngine :=
  fun s =>
    (Normal {| ref := next_ref s; class := c |},
     {| engine := engine s; cache := cache s;
        events := events s; next_ref := S (next_ref s) |}).

(** [await vscode.window.showErrorMessage(message)]. *)
Definition showErrorMessage (message : string) : M unit :=
  emit (EvShowErrorMessage message).

(** [this.cache.push(connection)]; on an unset cache the property access
    throws. *)
Definition cache_push (connection : EngineProviderCache) : M unit :=
  s <- get ;;
  match cache s with
  | Some c => set_cache (Some (c ++ [connection]))
  | None => throw "TypeError: Cannot read properties of undefined (reading 'push')"
  end.

(** [x || ''] on an optional string. *)
Definition or_empty (x : option string) : string :=
  match x with
  | Some s => s
  | None => ""
  end.

(** [!x] on an optional string: [undefined] and [''] are falsy. *)
Definition falsy (x : option string) : bool :=
  match x with
  | Some s => s =? ""
  | None => true
  end.

(* ===================================================================== *)
(** ** The three resolvers *)
(* ===================================================================== *)

Section Provider.

Variable h : Host.

Definition sqliteConfigResolver (sqliteConnection : Config)
  : M (option EngineProviderCache) :=
  engine <- new (SqliteJsEngine (path sqliteConnection)) ;;
  emit (EvBoot (ref engine)) ;;
  emit (EvIsOkay (ref engine)) ;;
  let isOkay := sqlite_isOkay h (path sqliteConnection) in
  if negb isOkay || negb (sqlite_getDatabase h (path sqliteConnection)) then
    showErrorMessage
      "The SQLite database specified in your config file is not valid." ;;
    ret None
  else
    ret (Some {| cache_id := Some (path sqliteConnection);
                 cache_description := Some (brief h (path sqliteConnection));
                 cache_details := Some (path sqliteConnection);
                 cache_engine := engine |}).

Definition mysqlConfigResolver (mysqlConfig : Config)
  : M (option EngineProviderCache) :=
  emit (EvGetConnectionFor "mysql" (host mysqlConfig) (port mysqlConfig)
          (username mysqlConfig) (password mysqlConfig)
          (database mysqlConfig)) ;;
  match getConnectionFor h "mysql" (host mysqlConfig) (port mysqlConfig)
          (username mysqlConfig) (password mysqlConfig)
          (database mysqlConfig) with
  | None => ret None
  | Some connection =>
      engine <- new (MysqlEngine connection) ;;
      emit (EvIsOkay (ref engine)) ;;
      let isOkay := mysql_isOkay h connection in
      if negb isOkay || negb (mysql_sequelize h connection) then
        showErrorMessage
          (String.concat ""
             ["The MySQL connection "; or_empty (name mysqlConfig);
              " specified in your config file is not valid."]) ;;
        ret None
      else
        ret (Some {| cache_id := name mysqlConfig;
                     cache_description := name mysqlConfig;
                     cache_details := None;
                     cache_engine := engine |})
  end.

Definition postgresConfigResolver (postgresConfig : Config)
  : M (option EngineProviderCache) :=
  emit (EvGetConnectionFor "postgres" (host postgresConfig)
          (port postgresConfig) (username postgresConfig)
          (password postgresConfig) (database postgresConfig)) ;;
  match getConnectionFor h "postgres" (host postgresConfig)
          (port postgresConfig) (username postgresConfig)
          (password postgresConfig) (database postgresConfig) with
  | None => ret None
  | Some connection =>
      engine <- new (PostgresEngine connection) ;;
      emit (EvIsOkay (ref engine)) ;;
      let isOkay := postgres_isOkay h connection in
      if negb isOkay || negb (postgres_sequelize h connection) then
        showErrorMessage
          (String.concat ""
             ["The Postgres connection "; or_empty (name postgresConfig);
              " specified in your config file is not valid."]) ;;
        ret None
      else
        ret (Some {| cache_id := name postgresConfig;
                     cache_description := name postgresConfig;
                     cache_details := None;
                     cache_engine := engine |})
  end.

(* ===================================================================== *)
(** ** The provider's methods *)
(* ===================================================================== *)

(** [boot()]: lines 18-21. *)
Definition boot : M unit :=
  set_cache None ;;
  set_engine None.

(** What one turn of the [for ... of] loop does next: go on with the
    following statement, or leave the method with [return b]. *)
Inductive Flow : Type :=
| Next
| Return (b : bool).

Definition and_then (m k : M Flow) : M Flow :=
  r <- m ;;
  match r with
  | Next => k
  | Return b => ret (Return b)
  end.

(** [if (connection) this.cache.push(connection)]. *)
Definition push_if (connection : option EngineProviderCache) : M unit :=
  match connection with
  | Some c => cache_push c
  | None => ret tt
  end.

(** The body of the loop, lines 31-53: three [if] statements in a row. *)
Definition iteration (config : Config) : M Flow :=
  and_then
    (if type config =? "sqlite" then
       connection <- sqliteConfigResolver config ;;
       push_if connection ;;
       ret Next
     else ret Next)
  (and_then
    (if (type config =? "mysql") || (type config =? "mariadb") then
       if falsy (name config) then
         let db := if type config =? "mysql" then "MySQL" else "MariaDB" in
         showErrorMessage
           (String.concat ""
              ["The "; db; " config file entry "; or_empty (name config);
               " does not have a name."]) ;;
         ret (Return false)
       else
         connection <- mysqlConfigResolver config ;;
         push_if connection ;;
         ret Next
     else ret Next)
    (if type config =? "postgres" then
       if falsy (name config) then
         showErrorMessage
           (String.concat ""
              ["The Postgres config file entry "; or_empty (name config);
               " does not have a name."]) ;;
         ret (Return false)
       else
         connection <- postgresConfigResolver config ;;
         push_if connection ;;
         ret Next
     else ret Next)).

(** [for (const config of configContent) { ... }], lines 30-54. *)
Fixpoint for_of (configContent : list Config) : M Flow :=
  match configContent with
  | [] => ret Next
  | config :: rest => and_then (iteration config) (for_of rest)
  end.

(** [canBeUsedInCurrentWorkspace()]: lines 23-57. *)
Definition canBeUsedInCurrentWorkspace : M bool :=
  emit EvGetConfigFileContent ;;
  match getConfigFileContent h with
  | None => ret false
  | Some configContent =>
      if (length configContent =? 0)%nat then ret false
      else
        s <- get ;;
        (match cache s with
         | None => set_cache (Some [])
         | Some _ => ret tt
         end) ;;
        r <- for_of configContent ;;
        match r with
        | Return b => ret b
        | Next =>
            s' <- get ;;
            match cache s' with
            | Some c => ret (0 <? length c)%nat
            | None =>
                throw "TypeError: Cannot read properties of undefined (reading 'length')"
            end
        end
  end.

End Provider.

(** Modelled from the spec: the [DatabaseEngine] interface is declared in
    [types.ts], which is not among the sources; section 4.1 lists [boot()]
    among the operations every concrete engine supports, so the test
    [this.engine?.boot] succeeds on every engine object. *)
Definition has_boot (e : DatabaseEngine) : bool := true.

(** Lines 70-74: re-boot the selected engine, if any, and return it. *)
Definition boot_selected : M (option DatabaseEngine) :=
  s <- get ;;
  (match engine s with
   | Some e => if has_boot e then emit (EvBoot (ref e)) else ret tt
   | None => ret tt
   end) ;;
  s' <- get ;;
  ret (engine s').

(** [cache.id === option.option.id]. *)
Definition id_is (i : string) (c : EngineProviderCache) : bool :=
  match cache_id c with
  | Some j => j =? i
  | None => false
  end.

(** [getDatabaseEngine(option)]: lines 59-75.  [None] is a call without
    option. *)
Definition getDatabaseEngine (option : option EngineProviderOption)
  : M (Datatypes.option DatabaseEngine) :=
  match option with
  | Some o =>
      s <- get ;;
      let matchedOption :=
        match cache s with
        | Some c => find (id_is (option_id o)) c
        | None => None
        end in
      match matchedOption with
      | None =>
          showErrorMessage
            (String.concat "" ["Could not find option with id "; option_id o]) ;;
          ret None
      | Some m =>
          set_engine (Some (cache_engine m)) ;;
          boot_selected
      end
  | None => boot_selected
  end.

(* ===================================================================== *)
(** ** Vocabulary of the specification *)
(* ===================================================================== *)

(** A descriptor of one of the three server kinds. *)
Definition is_server (c : Config) : bool :=
  (type c =? "mysql") || (type c =? "mariadb") || (type c =? "postgres").

(** A server descriptor whose [name] is empty or missing. *)
Definition nameless (c : Config) : bool :=
  is_server c && falsy (name c).

(** A descriptor whose tag is none of the four the provider knows. *)
Definition unknown_type (c : Config) : bool :=
  negb ((type c =? "sqlite") || is_server c).

(** The identity under which a descriptor is cached: the path of a sqlite
    entry, the name of a server entry. *)
Definition identity (c : Config) : option string :=
  if type c =? "sqlite" then Some (path c) else name c.

(** The handle the connector gives for a server descriptor. *)
Definition connection_of (h : Host) (c : Config) : option Sequelize :=
  getConnectionFor h (if type c =? "postgres" then "postgres" else "mysql")
    (host c) (port c) (username c) (password c) (database c).

(** Live validation of a descriptor: the sqlite engine is okay and has a
    database; the connector gives a handle on which the server engine is
    okay and holds its connection. *)
Definition passes (h : Host) (c : Config) : bool :=
  if type c =? "sqlite" then
    sqlite_isOkay h (path c) && sqlite_getDatabase h (path c)
  else if (type c =? "mysql") || (type c =? "mariadb") then
    match connection_of h c with
    | Some k => mysql_isOkay h k && mysql_sequelize h k
    | None => false
    end
  else if type c =? "postgres" then
    match connection_of h c with
    | Some k => postgres_isOkay h k && postgres_sequelize h k
    | None => false
    end
  else false.

(** The engine class a descriptor is dispatched to. *)
Definition class_of (h : Host) (c : Config) : option EngineClass :=
  if type c =? "sqlite" then Some (SqliteJsEngine (path c))
  else if (type c =? "mysql") || (type c =? "mariadb") then
    option_map MysqlEngine (connection_of h c)
  else if type c =? "postgres" then
    option_map PostgresEngine (connection_of h c)
  else None.

(** The cache entry of a descriptor that passes validation with the engine
    object [r]. *)
Definition validated (h : Host) (c : Config) (r : nat)
  : option EngineProviderCache :=
  if passes h c then
    match class_of h c with
    | Some k =>
        Some {| cache_id := identity c;
                cache_description :=
                  if type c =? "sqlite" then Some (brief h (path c))
                  else name c;
                cache_details :=
                  if type c =? "sqlite" then Some (path c) else None;
                cache_engine := {| ref := r; class := k |} |}
    | None => None
    end
  else None.

(** The number of engine objects one turn of the loop creates. *)
Definition allocs (h : Host) (c : Config) : nat :=
  match class_of h c with
  | Some _ => 1
  | None => 0
  end.

(** The entries a list of descriptors adds to the cache, in order, when the
    first engine object created is [r]. *)
Fixpoint resolved (h : Host) (l : list Config) (r : nat)
  : list EngineProviderCache :=
  match l with
  | [] => []
  | c :: rest =>
      match validated h c r with
      | Some e => e :: resolved h rest (r + allocs h c)
      | None => resolved h rest (r + allocs h c)
      end
  end.

(** The descriptors the loop examines: those before the first nameless
    server entry. *)
Fixpoint scanned (l : list Config) : list Config :=
  match l with
  | [] => []
  | c :: rest => if nameless c then [] else c :: scanned rest
  end.

(** The message shown for a nameless server entry. *)
Definition nameless_message (c : Config) : string :=
  if type c =? "mysql" then "The MySQL config file entry  does not have a name."
  else if type c =? "mariadb" then
    "The MariaDB config file entry  does not have a name."
  else "The Postgres config file entry  does not have a name.".

(** The reference of the engine of a cache entry. *)
Definition entry_ref (e : EngineProviderCache) : nat := ref (cache_engine e).

(** Engine objects of a cache are pairwise distinct and already allocated. *)
Definition cache_wf (s : State) : Prop :=
  match cache s with
  | Some c =>
      NoDup (map entry_ref c) /\
      Forall (fun e => entry_ref e < next_ref s) c
  | None => True
  end.

(** One call of a method of the provider, by the host [h]. *)
Inductive Call : Type :=
| CallBoot
| CallCanBeUsed (h : Host)
| CallGetDatabaseEngine (option : option EngineProviderOption).

Definition after (c : Call) (s : State) : State :=
  match c with
  | CallBoot => snd (boot s)
  | CallCanBeUsed h => snd (canBeUsedInCurrentWorkspace h s)
  | CallGetDatabaseEngine o => snd (getDatabaseEngine o s)
  end.

(** The states the provider can be in: the exported object, after any
    sequence of calls. *)
Inductive reachable : State -> Prop :=
| reachable_init : reachable ConfigFileProvider
| reachable_call c s : reachable s -> reachable (after c s).

(* ===================================================================== *)
(** ** Sample hosts and descriptors *)
(* ===================================================================== *)

Definition sqlite_entry (p : string) : Config :=
  {| type := "sqlite"; name := None; path := p; host := ""; port := PortNumber 0;
     username := ""; password := ""; database := "" |}.

Definition server_entry (t : string) (n : option string) (hst : string) : Config :=
  {| type := t; name := n; path := ""; host := hst; port := PortNumber 3306;
     username := "root"; password := "secret"; database := "app" |}.

(** A workspace whose sqlite file [app.db] is the only valid one, whose
    server [localhost] is the only reachable one, and whose engines are okay
    on every handle but handle 0. *)
Definition sample_host (content : option (list Config)) : Host :=
  {| getConfigFileContent := content;
     brief := fun s => s;
     getConnectionFor := fun _ hst _ _ _ _ =>
       if hst =? "localhost" then Some {| handle := 1 |}
       else if hst =? "stale" then Some {| handle := 0 |}
       else None;
     sqlite_isOkay := fun p => p =? "app.db";
     sqlite_getDatabase := fun p => p =? "app.db";
     mysql_isOkay := fun k => negb (handle k =? 0)%nat;
     mysql_sequelize := fun _ => true;
     postgres_isOkay := fun k => negb (handle k =? 0)%nat;
     postgres_sequelize := fun _ => true |}.

(** The message of the sqlite resolver. *)
Definition sqlite_invalid_message : string :=
  "The SQLite database specified in your config file is not valid.".

(** The message of a server resolver whose engine is not okay. *)
Definition server_invalid_message (c : Config) : string :=
  String.concat ""
    [if type c =? "postgres" then "The Postgres connection "
     else "The MySQL connection ";
     or_empty (name c); " specified in your config file is not valid."].

(** The awaited calls of one turn of the loop on a descriptor that is not a
    nameless server entry, when the next engine object is [r]. *)
Definition trace (h : Host) (c : Config) (r : nat) : list Event :=
  if type c =? "sqlite" then
    [EvBoot r; EvIsOkay r] ++
    (if passes h c then [] else [EvShowErrorMessage sqlite_invalid_message])
  else if is_server c then
    EvGetConnectionFor (if type c =? "postgres" then "postgres" else "mysql")
      (host c) (port c) (username c) (password c) (database c) ::
    match connection_of h c with
    | Some _ =>
        EvIsOkay r ::
        (if passes h c then []
         else [EvShowErrorMessage (server_invalid_message c)])
    | None => []
    end
  else [].

(** The awaited calls of the whole loop. *)
Fixpoint traces (h : Host) (l : list Config) (r : nat) : list Event :=
  match l with
  | [] => []
  | c :: rest =>
      if nameless c then [EvShowErrorMessage (nameless_message c)]
      else trace h c r ++ traces h rest (r + allocs h c)
  end.

(** The number of engine objects a list of descriptors creates. *)
Fixpoint allocated (h : Host) (l : list Config) : nat :=
  match l with
  | [] => 0
  | c :: rest => allocs h c + allocated h rest
  end.

(** The messages among a list of events. *)
Fixpoint messages (evs : list Event) : list string :=
  match evs with
  | [] => []
  | EvShowErrorMessage m :: rest => m :: messages rest
  | _ :: rest => messages rest
  end.

(** The message, if any, shown for a descriptor that fails validation. *)
Definition failure_messages (h : Host) (c : Config) : list string :=
  if type c =? "sqlite" then [sqlite_invalid_message]
  else if is_server c then
    match connection_of h c with
    | Some _ => [server_invalid_message c]
    | None => []
    end
  else [].

(** The state after [emit ev]. *)
Definition logged (s : State) (evs : list Event) : State :=
  {| engine := engine s; cache := cache s;
     events := events s ++ evs; next_ref := next_ref s |}.

(** The state after [this.engine = e]. *)
Definition selected (s : State) (e : DatabaseEngine) : State :=
  {| engine := Some e; cache := cache s;
     events := events s; next_ref := next_ref s |}.

(** The entry [this.cache?.find(...)] gives. *)
Definition lookup (s : State) (i : string) : option EngineProviderCache :=
  match cache s with
  | Some c => find (id_is i) c
  | None => None
  end.

Definition not_found_message (i : string) : string :=
  String.concat "" ["Could not find option with id "; i].

(** The cache before a call, read as a list. *)
Definition cached (s : State) : list EngineProviderCache :=
  match cache s with
  | Some c => c
  | None => []
  end.

(** The candidates of a call: the parsed list, or none. *)
Definition candidates (h : Host) : list Config :=
  match getConfigFileContent h with
  | Some l => l
  | None => []
  end.

(** The host [h] with another content of the config file. *)
Definition with_content (h : Host) (content : option (list Config)) : Host :=
  {| getConfigFileContent := content;
     brief := brief h;
     getConnectionFor := getConnectionFor h;
     sqlite_isOkay := sqlite_isOkay h;
     sqlite_getDatabase := sqlite_getDatabase h;
     mysql_isOkay := mysql_isOkay h;
     mysql_sequelize := mysql_sequelize h;
     postgres_isOkay := postgres_isOkay h;
     postgres_sequelize := postgres_sequelize h |}.

(** A descriptor dispatched to the sqlite resolver. *)
Definition is_sqlite (c : Config) : bool := type c =? "sqlite".

(** The descriptor [c] under another tag. *)
Definition retag (t : string) (c : Config) : Config :=
  {| type := t; name := name c; path := path c; host := host c;
     port := port c; username := username c; password := password c;
     database := database c |}.

(** A ['mariadb'] descriptor read as a ['mysql'] one. *)
Definition mariadb_as_mysql (c : Config) : Config :=
  if type c =? "mariadb" then retag "mysql" c else c.

(** The engines booted among a list of events. *)
Fixpoint boots (evs : list Event) : list nat :=
  match evs with
  | [] => []
  | EvBoot r :: rest => r :: boots rest
  | _ :: rest => boots rest
  end.

(** The shape of the entries the resolvers build: a sqlite engine is cached
    under the path it was built on, which is also its [details]; a server
    engine is cached under a non-empty name, which is also its
    [description], and has no [details]. *)
Definition entry_ok (m : EngineProviderCache) : Prop :=
  match class (cache_engine m) with
  | SqliteJsEngine p =>
      cache_id m = Some p /\ cache_details m = Some p
  | MysqlEngine _ | PostgresEngine _ =>
      exists n, n <> "" /\ cache_id m = Some n /\
                cache_description m = Some n /\ cache_details m = None
  end.

(* ===================================================================== *)
(** ** Case analysis on the tag of a descriptor *)
(* ===================================================================== *)

Lemma type_cases (c : Config) :
  type c = "sqlite" \/ type c = "mysql" \/ type c = "mariadb" \/
  type c = "postgres" \/ unknown_type c = true.
Proof.
  unfold unknown_type, is_server.
  destruct (String.eqb_spec (type c) "sqlite") as [E|_]; [now left|].
  destruct (String.eqb_spec (type c) "mysql") as [E|_]; [now right; left|].
  destruct (String.eqb_spec (type c) "mariadb") as [E|_];
    [now right; right; left|].
  destruct (String.eqb_spec (type c) "postgres") as [E|_];
    [now right; right; right; left|].
  now right; right; right; right.
Qed.

Lemma unknown_type_tests (c : Config) :
  unknown_type c = true ->
  (type c =? "sqlite") = false /\ (type c =? "mysql") = false /\
  (type c =? "mariadb") = false /\ (type c =? "postgres") = false.
Proof.
  unfold unknown_type, is_server.
  destruct (type c =? "sqlite"), (type c =? "mysql"),
    (type c =? "mariadb"), (type c =? "postgres"); simpl;
    intros H; try discriminate H; auto.
Qed.

(** Split on the tag of [c] and rewrite every test on it, in the goal and
    in the hypothesis [N]. *)
Ltac by_type c N :=
  let T := fresh "T" in
  destruct (type_cases c) as [T|[T|[T|[T|T]]]];
  [ rewrite ?T in N; rewrite ?T; simpl in N |- *
  | rewrite ?T in N; rewrite ?T; simpl in N |- *
  | rewrite ?T in N; rewrite ?T; simpl in N |- *
  | rewrite ?T in N; rewrite ?T; simpl in N |- *
  | let T1 := fresh "T" in
    let T2 := fresh "T" in
    let T3 := fresh "T" in
    let T4 := fresh "T" in
    destruct (unknown_type_tests c T) as (T1 & T2 & T3 & T4);
    rewrite ?T1, ?T2, ?T3, ?T4 in N; rewrite ?T1, ?T2, ?T3, ?T4;
    simpl in N |- * ].

(** Unfold the monad and the methods down to the state they compute. *)
Ltac run :=
  unfold iteration, and_then, push_if, cache_push, sqliteConfigResolver,
    mysqlConfigResolver, postgresConfigResolver, showErrorMessage,
    bind, ret, get, throw, emit, set_cache, set_engine, new; simpl.

Lemma bind_run {A B} (m : M A) (k : A -> M B) (s : State) a s' :
  m s = (Normal a, s') -> bind m k s = k a s'.
Proof. unfold bind. now intros ->. Qed.

Lemma state_eq (e e' : option DatabaseEngine) c c' ev ev' n n' :
  e = e' -> c = c' -> ev = ev' -> n = n' ->
  {| engine := e; cache := c; events := ev; next_ref := n |} =
  {| engine := e'; cache := c'; events := ev'; next_ref := n' |}.
Proof. intros; subst; reflexivity. Qed.

(* ===================================================================== *)
(** ** One turn of the loop *)
(* ===================================================================== *)

Section Loop.

Variable h : Host.

(** An unknown tag: nothing happens, whatever the state. *)
Lemma iteration_unknown (c : Config) (s : State) :
  unknown_type c = true -> iteration h c s = (Normal Next, s).
Proof.
  intros U. destruct (unknown_type_tests c U) as (T1 & T2 & T3 & T4).
  unfold iteration. rewrite T1, T2, T3, T4. reflexivity.
Qed.

(** A nameless server entry: one message, then [return false]. *)
Lemma iteration_nameless (c : Config) (s : State) :
  nameless c = true ->
  iteration h c s =
  (Normal (Return false),
   {| engine := engine s; cache := cache s;
      events := events s ++ [EvShowErrorMessage (nameless_message c)];
      next_ref := next_ref s |}).
Proof.
  unfold nameless, is_server, nameless_message, iteration. intros N.
  by_type c N; try discriminate N;
    rewrite N; destruct (name c) as [n|]; simpl in N |- *;
    try (apply String.eqb_eq in N; subst n); reflexivity.
Qed.

(** Any other descriptor: the turn ends normally, the cache gains the
    validated entry if there is one, and the loop goes on. *)
Lemma iteration_scanned (c : Config) (s : State) c0 :
  cache s = Some c0 ->
  nameless c = false ->
  iteration h c s =
  (Normal Next,
   {| engine := engine s;
      cache := Some (c0 ++ match validated h c (next_ref s) with
                           | Some e => [e]
                           | None => []
                           end);
      events := events s ++ trace h c (next_ref s);
      next_ref := next_ref s + allocs h c |}).
Proof.
  intros C N.
  unfold nameless, is_server in N.
  unfold validated, allocs, trace, passes, class_of, identity, connection_of,
    server_invalid_message, sqlite_invalid_message, is_server.
  run.
  by_type c N; rewrite ?N; simpl.
  - destruct (sqlite_isOkay h (path c)), (sqlite_getDatabase h (path c));
      simpl; rewrite ?C; simpl; f_equal; apply state_eq;
      rewrite <- ?app_assoc, ?app_nil_r, ?Nat.add_1_r; reflexivity.
  - destruct (getConnectionFor h "mysql" _ _ _ _ _) as [k|]; simpl.
    + destruct (mysql_isOkay h k), (mysql_sequelize h k);
        simpl; rewrite ?C; simpl; f_equal; apply state_eq;
        rewrite <- ?app_assoc, ?app_nil_r, ?Nat.add_1_r; reflexivity.
    + f_equal; apply state_eq;
        rewrite <- ?app_assoc, ?app_nil_r, ?Nat.add_0_r; auto.
  - destruct (getConnectionFor h "mysql" _ _ _ _ _) as [k|]; simpl.
    + destruct (mysql_isOkay h k), (mysql_sequelize h k);
        simpl; rewrite ?C; simpl; f_equal; apply state_eq;
        rewrite <- ?app_assoc, ?app_nil_r, ?Nat.add_1_r; reflexivity.
    + f_equal; apply state_eq;
        rewrite <- ?app_assoc, ?app_nil_r, ?Nat.add_0_r; auto.
  - destruct (getConnectionFor h "postgres" _ _ _ _ _) as [k|]; simpl.
    + destruct (postgres_isOkay h k), (postgres_sequelize h k);
        simpl; rewrite ?C; simpl; f_equal; apply state_eq;
        rewrite <- ?app_assoc, ?app_nil_r, ?Nat.add_1_r; reflexivity.
    + f_equal; apply state_eq;
        rewrite <- ?app_assoc, ?app_nil_r, ?Nat.add_0_r; auto.
  - destruct s; simpl in *; subst; f_equal; apply state_eq;
      rewrite ?app_nil_r, ?Nat.add_0_r; reflexivity.
Qed.

End Loop.

(* ===================================================================== *)
(** ** Validation and the entries it yields *)
(* ===================================================================== *)

Section Validation.

Variable h : Host.

Lemma passes_class (c : Config) :
  passes h c = true -> exists k, class_of h c = Some k.
Proof.
  unfold passes, class_of. intros P.
  by_type c P; try discriminate P; try (eexists; reflexivity);
    destruct (connection_of h c) as [k|]; try discriminate P;
    eexists; reflexivity.
Qed.

Lemma validated_passes (c : Config) (r : nat) :
  validated h c r = None <-> passes h c = false.
Proof.
  unfold validated. destruct (passes h c) eqn:P.
  - destruct (passes_class c P) as [k K]. rewrite K. split; discriminate.
  - split; reflexivity.
Qed.

Lemma validated_entry (c : Config) (r : nat) e :
  validated h c r = Some e ->
  passes h c = true /\ cache_id e = identity c /\ entry_ref e = r /\
  class_of h c = Some (class (cache_engine e)) /\ allocs h c = 1.
Proof.
  unfold validated, allocs. destruct (passes h c); [|discriminate].
  destruct (class_of h c) as [k|]; [|discriminate].
  intros E. injection E as <-. auto.
Qed.

Lemma resolved_ids (l : list Config) (r : nat) :
  map cache_id (resolved h l r) = map identity (filter (passes h) l).
Proof.
  revert r. induction l as [|c l IH]; intros r; simpl; [reflexivity|].
  destruct (validated h c r) as [e|] eqn:V.
  - destruct (validated_entry _ _ _ V) as (P & I & _). rewrite P. simpl.
    now rewrite I, IH.
  - apply validated_passes in V. rewrite V. apply IH.
Qed.

Lemma resolved_length (l : list Config) (r : nat) :
  length (resolved h l r) = length (filter (passes h) l).
Proof.
  rewrite <- (length_map cache_id), resolved_ids. apply length_map.
Qed.

Lemma resolved_nil (l : list Config) (r : nat) :
  resolved h l r = [] <-> (forall c, In c l -> passes h c = false).
Proof.
  split.
  - intros E c I. destruct (passes h c) eqn:P; [|reflexivity].
    assert (F : In c (filter (passes h) l)) by (apply filter_In; auto).
    apply (f_equal (@length _)) in E. rewrite resolved_length in E.
    destruct (filter (passes h) l); [contradiction|discriminate].
  - intros F. apply length_zero_iff_nil. rewrite resolved_length.
    apply length_zero_iff_nil.
    induction l as [|c l IH]; simpl; [reflexivity|].
    rewrite (F c (or_introl eq_refl)). apply IH.
    intros x I. apply F. now right.
Qed.

(** The engines of the resolved entries are the objects created during the
    run, in the order of their creation. *)
Lemma resolved_refs (l : list Config) (r : nat) :
  Forall (fun e => r <= entry_ref e < r + allocated h l) (resolved h l r).
Proof.
  revert r. induction l as [|c l IH]; intros r; simpl; [constructor|].
  assert (T : Forall (fun e => r <= entry_ref e < r + (allocs h c + allocated h l))
                (resolved h l (r + allocs h c))).
  { eapply Forall_impl; [|apply IH]. simpl. intros e. lia. }
  destruct (validated h c r) as [e|] eqn:V; [|exact T].
  destruct (validated_entry _ _ _ V) as (_ & _ & R & _ & A).
  constructor; [lia|exact T].
Qed.

Lemma resolved_NoDup (l : list Config) (r : nat) :
  NoDup (map entry_ref (resolved h l r)).
Proof.
  revert r. induction l as [|c l IH]; intros r; simpl; [constructor|].
  destruct (validated h c r) as [e|] eqn:V; [|apply IH].
  destruct (validated_entry _ _ _ V) as (_ & _ & R & _ & A).
  simpl. constructor; [|apply IH].
  intros I. apply in_map_iff in I. destruct I as (e' & E & I).
  pose proof (resolved_refs l (r + allocs h c)) as F.
  rewrite Forall_forall in F. specialize (F e' I). lia.
Qed.

Lemma scanned_all (l : list Config) :
  existsb nameless l = false -> scanned l = l.
Proof.
  induction l as [|c l IH]; simpl; [reflexivity|].
  destruct (nameless c); simpl; [discriminate|].
  intros E. now rewrite IH.
Qed.

(** A list with a nameless server entry splits at the first such entry. *)
Lemma scanned_split (l : list Config) :
  existsb nameless l = true ->
  exists c rest, l = scanned l ++ c :: rest /\ nameless c = true.
Proof.
  induction l as [|c l IH]; simpl; [discriminate|].
  destruct (nameless c) eqn:N; simpl.
  - intros _. now exists c, l.
  - intros E. destruct (IH E) as (c' & rest & L & N').
    exists c', rest. split; [now rewrite <- L|exact N'].
Qed.

Lemma scanned_well_formed (l : list Config) :
  forall c, In c (scanned l) -> nameless c = false.
Proof.
  induction l as [|x l IH]; simpl; [contradiction|].
  destruct (nameless x) eqn:N; simpl; [contradiction|].
  intros c [<-|I]; auto.
Qed.

(* ===================================================================== *)
(** ** The loop and the method as functions of the state *)
(* ===================================================================== *)

Lemma for_of_run (l : list Config) (s : State) c0 :
  cache s = Some c0 ->
  for_of h l s =
  (Normal (if existsb nameless l then Return false else Next),
   {| engine := engine s;
      cache := Some (c0 ++ resolved h (scanned l) (next_ref s));
      events := events s ++ traces h l (next_ref s);
      next_ref := next_ref s + allocated h (scanned l) |}).
Proof.
  revert s c0. induction l as [|c l IH]; intros s c0 C; simpl.
  - unfold ret. destruct s; simpl in *; subst.
    now rewrite !app_nil_r, Nat.add_0_r.
  - unfold and_then, bind. destruct (nameless c) eqn:N; simpl.
    + rewrite (iteration_nameless h c s N). rewrite C.
      unfold ret. now rewrite app_nil_r, Nat.add_0_r.
    + rewrite (iteration_scanned h c s c0 C N).
      erewrite IH by reflexivity. simpl.
      f_equal. apply state_eq; try reflexivity.
      * f_equal. rewrite <- app_assoc. f_equal.
        now destruct (validated h c (next_ref s)).
      * now rewrite <- app_assoc.
      * now rewrite Nat.add_assoc.
Qed.

Lemma messages_app (a b : list Event) :
  messages (a ++ b) = messages a ++ messages b.
Proof.
  induction a as [|[| | | |] a IH]; simpl; rewrite ?IH; reflexivity.
Qed.

(** The awaited calls of a loop that stops at a nameless entry. *)
Lemma traces_abort (l1 : list Config) (c : Config) (l2 : list Config) (r : nat) :
  (forall x, In x l1 -> nameless x = false) ->
  nameless c = true ->
  traces h (l1 ++ c :: l2) r =
  traces h l1 r ++ [EvShowErrorMessage (nameless_message c)].
Proof.
  revert r. induction l1 as [|x l1 IH]; intros r W N; simpl.
  - now rewrite N.
  - rewrite (W x (or_introl eq_refl)).
    rewrite IH; [now rewrite app_assoc| |exact N].
    intros y I. apply W. now right.
Qed.

(** [canBeUsedInCurrentWorkspace] on a non-empty descriptor list. *)
Lemma canBeUsed_run (l : list Config) (s : State) :
  getConfigFileContent h = Some l ->
  l <> [] ->
  let c0 := match cache s with Some c => c | None => [] end in
  let c1 := c0 ++ resolved h (scanned l) (next_ref s) in
  canBeUsedInCurrentWorkspace h s =
  (Normal (if existsb nameless l then false else (0 <? length c1)%nat),
   {| engine := engine s;
      cache := Some c1;
      events := events s ++ EvGetConfigFileContent :: traces h l (next_ref s);
      next_ref := next_ref s + allocated h (scanned l) |}).
Proof.
  intros G NE c0 c1. unfold canBeUsedInCurrentWorkspace. rewrite G.
  destruct l as [|c l]; [contradiction|].
  change (length (c :: l) =? 0)%nat with false. cbv iota.
  erewrite bind_run by reflexivity.
  erewrite bind_run by reflexivity.
  set (s1 := {| engine := engine s; cache := Some c0;
                events := events s ++ [EvGetConfigFileContent];
                next_ref := next_ref s |}).
  rewrite (bind_run _ _ _ tt s1)
    by (subst s1 c0; simpl; now destruct (cache s), s).
  rewrite (bind_run _ _ _ _ _ (for_of_run (c :: l) s1 c0 eq_refl)).
  subst s1. cbn [engine cache events next_ref]. fold c1.
  destruct (existsb nameless (c :: l)).
  - unfold ret. now rewrite <- app_assoc.
  - erewrite bind_run by reflexivity. cbn [cache]. unfold ret.
    now rewrite <- app_assoc.
Qed.

(** [canBeUsedInCurrentWorkspace] when the resolver yields nothing. *)
Lemma canBeUsed_nothing (s : State) :
  getConfigFileContent h = None \/ getConfigFileContent h = Some [] ->
  canBeUsedInCurrentWorkspace h s =
  (Normal false,
   {| engine := engine s; cache := cache s;
      events := events s ++ [EvGetConfigFileContent];
      next_ref := next_ref s |}).
Proof.
  unfold canBeUsedInCurrentWorkspace. intros [G|G]; rewrite G; reflexivity.
Qed.

End Validation.

(* ===================================================================== *)
(** ** Selection as a function of the state *)
(* ===================================================================== *)

Lemma getDatabaseEngine_none (s : State) :
  getDatabaseEngine None s =
  match engine s with
  | Some e => (Normal (Some e), logged s [EvBoot (ref e)])
  | None => (Normal None, s)
  end.
Proof.
  unfold getDatabaseEngine, boot_selected, has_boot, logged.
  unfold bind, get, ret, emit. destruct (engine s) eqn:E; simpl.
  - now rewrite E.
  - now rewrite E.
Qed.

Lemma getDatabaseEngine_found (s : State) (o : EngineProviderOption) m :
  lookup s (option_id o) = Some m ->
  getDatabaseEngine (Some o) s =
  (Normal (Some (cache_engine m)),
   logged (selected s (cache_engine m)) [EvBoot (ref (cache_engine m))]).
Proof.
  unfold lookup, getDatabaseEngine. intros L.
  erewrite bind_run by reflexivity. rewrite L.
  erewrite bind_run by reflexivity.
  apply (getDatabaseEngine_none (selected s (cache_engine m))).
Qed.

Lemma getDatabaseEngine_missing (s : State) (o : EngineProviderOption) :
  lookup s (option_id o) = None ->
  getDatabaseEngine (Some o) s =
  (Normal None,
   logged s [EvShowErrorMessage (not_found_message (option_id o))]).
Proof.
  unfold lookup, getDatabaseEngine. intros L.
  erewrite bind_run by reflexivity. rewrite L. reflexivity.
Qed.

(** Selection never touches the cache nor creates an engine. *)
Lemma getDatabaseEngine_cache (o : option EngineProviderOption) (s : State) :
  cache (snd (getDatabaseEngine o s)) = cache s /\
  next_ref (snd (getDatabaseEngine o s)) = next_ref s.
Proof.
  destruct o as [o|].
  - destruct (lookup s (option_id o)) as [m|] eqn:L.
    + rewrite (getDatabaseEngine_found _ _ _ L). now split.
    + rewrite (getDatabaseEngine_missing _ _ L). now split.
  - rewrite getDatabaseEngine_none. destruct (engine s); now split.
Qed.

Lemma find_id_is (i : string) (c : list EngineProviderCache) m :
  find (id_is i) c = Some m -> In m c /\ cache_id m = Some i.
Proof.
  intros F. apply find_some in F. destruct F as [I E]. split; [exact I|].
  unfold id_is in E. destruct (cache_id m) as [j|]; [|discriminate].
  apply String.eqb_eq in E. now subst.
Qed.

Lemma find_id_is_none (i : string) (c : list EngineProviderCache) :
  find (id_is i) c = None <-> (forall x, In x c -> cache_id x <> Some i).
Proof.
  split.
  - intros F x I E. pose proof (find_none _ _ F x I) as N.
    unfold id_is in N. rewrite E, String.eqb_refl in N. discriminate.
  - intros A. destruct (find (id_is i) c) as [m|] eqn:F; [|reflexivity].
    apply find_id_is in F. destruct F as [I E]. now destruct (A m I).
Qed.

(** The first entry with a given identity is found as soon as some entry has
    it. *)
Lemma find_id_is_some (i : string) (c : list EngineProviderCache) b :
  In b c -> cache_id b = Some i -> exists m, find (id_is i) c = Some m.
Proof.
  intros I E. destruct (find (id_is i) c) as [m|] eqn:F; [now exists m|].
  rewrite find_id_is_none in F. now destruct (F b I).
Qed.

Lemma NoDup_map_inj {A B} (f : A -> B) (l : list A) x y :
  NoDup (map f l) -> In x l -> In y l -> f x = f y -> x = y.
Proof.
  induction l as [|a l IH]; simpl; [contradiction|].
  intros N Ix Iy E. inversion N as [|? ? NI N']; subst.
  destruct Ix as [<-|Ix], Iy as [<-|Iy]; auto.
  - destruct NI. rewrite E. now apply in_map.
  - destruct NI. rewrite <- E. now apply in_map.
Qed.

(* ===================================================================== *)
(** ** An invariant of the provider: one engine object per cache entry *)
(* ===================================================================== *)

Lemma cache_wf_extend (c0 added : list EngineProviderCache) (n k : nat) :
  NoDup (map entry_ref c0) ->
  Forall (fun e => entry_ref e < n) c0 ->
  NoDup (map entry_ref added) ->
  Forall (fun e => n <= entry_ref e < n + k) added ->
  NoDup (map entry_ref (c0 ++ added)) /\
  Forall (fun e => entry_ref e < n + k) (c0 ++ added).
Proof.
  intros N0 F0 N1 F1. split.
  - rewrite map_app. revert N0 F0.
    induction c0 as [|a c0 IH]; simpl; intros N0 F0; [exact N1|].
    inversion N0 as [|? ? NI N0']; subst.
    inversion F0 as [|? ? Fa F0']; subst.
    constructor; [|now apply IH].
    intros I. apply in_app_or in I. destruct I as [I|I]; [now apply NI|].
    apply in_map_iff in I. destruct I as (e & E & I).
    rewrite Forall_forall in F1. specialize (F1 e I). lia.
  - apply Forall_app. split.
    + eapply Forall_impl; [|exact F0]. simpl. intros e. lia.
    + eapply Forall_impl; [|exact F1]. simpl. intros e. lia.
Qed.

Lemma canBeUsed_wf (h : Host) (s : State) :
  cache_wf s -> cache_wf (snd (canBeUsedInCurrentWorkspace h s)).
Proof.
  intros W. destruct (getConfigFileContent h) as [[|c l]|] eqn:G.
  - rewrite canBeUsed_nothing by auto. exact W.
  - rewrite (canBeUsed_run h (c :: l)) by (auto; discriminate).
    unfold cache_wf in *. cbn [snd cache next_ref].
    apply cache_wf_extend.
    + destruct (cache s); [apply W|constructor].
    + destruct (cache s); [apply W|constructor].
    + apply resolved_NoDup.
    + apply resolved_refs.
  - rewrite canBeUsed_nothing by auto. exact W.
Qed.

Theorem reachable_wf (s : State) : reachable s -> cache_wf s.
Proof.
  induction 1 as [|c s R IH].
  - exact I.
  - destruct c as [|h|o]; simpl.
    + exact I.
    + now apply canBeUsed_wf.
    + unfold cache_wf. destruct (getDatabaseEngine_cache o s) as [-> ->].
      exact IH.
Qed.

(** The method never throws: it always returns a boolean. *)
Lemma canBeUsed_returns (h : Host) (s : State) :
  exists b, fst (canBeUsedInCurrentWorkspace h s) = Normal b.
Proof.
  destruct (getConfigFileContent h) as [[|c l]|] eqn:G.
  - rewrite canBeUsed_nothing by auto. now exists false.
  - rewrite (canBeUsed_run h (c :: l)) by (auto; discriminate).
    eexists. reflexivity.
  - rewrite canBeUsed_nothing by auto. now exists false.
Qed.

(* ===================================================================== *)
(** ** Resolution: nameless server entries *)
(* ===================================================================== *)

(** C1, as the specification words it, fails: on the exported provider, a
    valid sqlite entry followed by a mysql entry without name makes the
    method return [false] while the cache holds the sqlite entry. *)
Lemma C1_cache_not_empty_after_abort :
  let l := [sqlite_entry "app.db"; server_entry "mysql" None "localhost"] in
  let h := sample_host (Some l) in
  let r := canBeUsedInCurrentWorkspace h ConfigFileProvider in
  existsb nameless l = true /\
  cache ConfigFileProvider = None /\
  fst r = Normal false /\
  cache (snd r) =
    Some [{| cache_id := Some "app.db";
             cache_description := Some "app.db";
             cache_details := Some "app.db";
             cache_engine := {| ref := 0; class := SqliteJsEngine "app.db" |} |}] /\
  ~ (cache (snd r) = None \/ cache (snd r) = Some []).
Proof.
  cbv zeta. repeat split; try reflexivity.
  intros [E|E]; discriminate E.
Qed.

(** C1, amended: a descriptor list with a server entry whose name is empty
    or missing makes [canBeUsedInCurrentWorkspace] return [false], whatever
    else the list holds, after one message about the first such entry; the
    cache is not rolled back: it is the former cache followed by the entries
    validated from the descriptors before that entry, and the descriptors
    after it are not examined. *)
Theorem C1_nameless_entry_aborts (h : Host) (l : list Config) (s : State)
  (c : Config) :
  getConfigFileContent h = Some l ->
  In c l ->
  nameless c = true ->
  let r := canBeUsedInCurrentWorkspace h s in
  exists first rest added,
    l = scanned l ++ first :: rest /\
    nameless first = true /\
    (forall x, In x (scanned l) -> nameless x = false) /\
    fst r = Normal false /\
    cache (snd r) = Some (cached s ++ added) /\
    map cache_id added = map identity (filter (passes h) (scanned l)) /\
    messages (events (snd r)) =
      messages (events s) ++ messages (traces h (scanned l) (next_ref s))
        ++ [nameless_message first].
Proof.
  intros G I N r.
  assert (E : existsb nameless l = true)
    by (apply existsb_exists; now exists c).
  assert (NE : l <> []) by (intros ->; contradiction).
  destruct (scanned_split l E) as (first & rest & L & NF).
  exists first, rest, (resolved h (scanned l) (next_ref s)).
  subst r. rewrite (canBeUsed_run h l s G NE). rewrite E.
  cbn [fst snd cache events].
  repeat split; auto.
  - apply scanned_well_formed.
  - apply resolved_ids.
  - rewrite messages_app. cbn [messages]. f_equal.
    rewrite L at 1.
    rewrite (traces_abort h _ _ _ _ (scanned_well_formed l) NF).
    rewrite messages_app. reflexivity.
Qed.

(** A list with a nameless mysql entry after a valid sqlite entry. *)
Lemma C1_nameless_entry_aborts_witness :
  let l := [sqlite_entry "app.db"; server_entry "mysql" (Some "") "localhost";
            sqlite_entry "app.db"] in
  let r := canBeUsedInCurrentWorkspace (sample_host (Some l)) ConfigFileProvider in
  exists first rest added,
    l = scanned l ++ first :: rest /\
    nameless first = true /\
    (forall x, In x (scanned l) -> nameless x = false) /\
    fst r = Normal false /\
    cache (snd r) = Some (cached ConfigFileProvider ++ added) /\
    map cache_id added =
      map identity (filter (passes (sample_host (Some l))) (scanned l)) /\
    messages (events (snd r)) =
      messages (events ConfigFileProvider) ++
      messages (traces (sample_host (Some l)) (scanned l)
                  (next_ref ConfigFileProvider))
        ++ [nameless_message first].
Proof.
  apply (C1_nameless_entry_aborts
           (sample_host
              (Some [sqlite_entry "app.db";
                     server_entry "mysql" (Some "") "localhost";
                     sqlite_entry "app.db"]))
           _ ConfigFileProvider
           (server_entry "mysql" (Some "") "localhost")).
  - reflexivity.
  - simpl. auto.
  - reflexivity.
Defined.

(* ===================================================================== *)
(** ** Resolution: well-formed lists *)
(* ===================================================================== *)

(** C2: on a freshly booted provider and a descriptor list without nameless
    server entry, [canBeUsedInCurrentWorkspace] returns a boolean, which is
    [true] exactly when some entry of the list passes live validation, and
    exactly when the cache it leaves is a non-empty list. *)
Theorem C2_usable_iff_some_entry_validates (h : Host) (l : list Config)
  (s0 : State) :
  getConfigFileContent h = Some l ->
  (forall c, In c l -> nameless c = false) ->
  let r := canBeUsedInCurrentWorkspace h (snd (boot s0)) in
  (exists b, fst r = Normal b) /\
  (fst r = Normal true <-> exists c, In c l /\ passes h c = true) /\
  (fst r = Normal true <-> exists e c1, cache (snd r) = Some (e :: c1)).
Proof.
  intros G W r. split; [apply canBeUsed_returns|].
  destruct l as [|x l].
  - subst r. rewrite canBeUsed_nothing by auto. cbn [fst snd cache boot].
    split; split.
    + intros D; discriminate D.
    + intros (c & [] & _).
    + intros D; discriminate D.
    + intros (e & c1 & E). discriminate E.
  - assert (E : existsb nameless (x :: l) = false).
    { apply not_true_is_false. intros E. apply existsb_exists in E.
      destruct E as (c & I & N). rewrite (W c I) in N. discriminate. }
    subst r. rewrite (canBeUsed_run h (x :: l)) by (auto; discriminate).
    rewrite E, (scanned_all _ E).
    set (n := next_ref _).
    pose proof (resolved_length h (x :: l) n) as Len.
    pose proof (resolved_nil h (x :: l) n) as Nil.
    destruct (resolved h (x :: l) n) as [|e c1]; simpl.
    + split; split.
      * intros D; discriminate D.
      * intros (c & I & P). rewrite (proj1 Nil eq_refl c I) in P.
        discriminate.
      * intros D; discriminate D.
      * intros (e & c1 & D). discriminate D.
    + split; split; try reflexivity.
      * intros _. destruct (filter (passes h) (x :: l)) as [|c f] eqn:F;
          [discriminate Len|].
        exists c. apply (proj1 (filter_In (passes h) c (x :: l))).
        rewrite F. now left.
      * intros _. now exists e, c1.
Qed.

(** Three well-formed entries, of which the second validates. *)
Lemma C2_usable_iff_some_entry_validates_witness :
  let l := [sqlite_entry "missing.db";
            server_entry "mysql" (Some "main") "localhost";
            server_entry "postgres" (Some "pg") "nowhere"] in
  let h := sample_host (Some l) in
  let r := canBeUsedInCurrentWorkspace h (snd (boot ConfigFileProvider)) in
  (exists b, fst r = Normal b) /\
  (fst r = Normal true <-> exists c, In c l /\ passes h c = true) /\
  (fst r = Normal true <-> exists e c1, cache (snd r) = Some (e :: c1)).
Proof.
  apply (C2_usable_iff_some_entry_validates
           (sample_host
              (Some [sqlite_entry "missing.db";
                     server_entry "mysql" (Some "main") "localhost";
                     server_entry "postgres" (Some "pg") "nowhere"]))
           _ ConfigFileProvider).
  - reflexivity.
  - simpl. intros c [<-|[<-|[<-|[]]]]; reflexivity.
Defined.

(** C3: when the cache is already set, [canBeUsedInCurrentWorkspace] does
    not clear it: the cache it leaves is the former one followed by the
    entries validated during this call, whose identities are those of the
    examined descriptors that pass, present or not in the former cache; on a
    non-empty list without nameless entry the boolean is computed from the
    length of the combined cache, hence it is [true] on a non-empty former
    cache even when every descriptor fails validation. *)
Theorem C3_cache_accumulates (h : Host) (s : State)
  (old : list EngineProviderCache) :
  cache s = Some old ->
  let r := canBeUsedInCurrentWorkspace h s in
  exists added,
    cache (snd r) = Some (old ++ added) /\
    map cache_id added =
      map identity (filter (passes h) (scanned (candidates h))) /\
    (candidates h <> [] -> existsb nameless (candidates h) = false ->
     fst r = Normal (0 <? length (old ++ added))%nat) /\
    (candidates h <> [] -> old <> [] ->
     (forall c, In c (candidates h) ->
                nameless c = false /\ passes h c = false) ->
     fst r = Normal true /\ cache (snd r) = Some old).
Proof.
  intros C r. unfold candidates.
  destruct (getConfigFileContent h) as [[|x l]|] eqn:G.
  - exists []. subst r. rewrite canBeUsed_nothing by auto.
    cbn [fst snd cache]. rewrite app_nil_r.
    split; [exact C|]. split; [reflexivity|].
    split; intros NE; now destruct NE.
  - exists (resolved h (scanned (x :: l)) (next_ref s)).
    subst r. rewrite (canBeUsed_run h (x :: l)) by (auto; discriminate).
    rewrite C. cbn [fst snd cache].
    split; [reflexivity|]. split; [apply resolved_ids|]. split.
    + intros _ E. now rewrite E.
    + intros _ NE A.
      assert (E : existsb nameless (x :: l) = false).
      { apply not_true_is_false. intros E. apply existsb_exists in E.
        destruct E as (c & I & N). destruct (A c I) as [W _].
        rewrite W in N. discriminate. }
      rewrite E, (scanned_all _ E).
      rewrite (proj2 (resolved_nil h (x :: l) (next_ref s)))
        by (intros c I; apply A, I).
      rewrite app_nil_r. split; [|reflexivity].
      destruct old; [now destruct NE|reflexivity].
  - exists []. subst r. rewrite canBeUsed_nothing by auto.
    cbn [fst snd cache]. rewrite app_nil_r.
    split; [exact C|]. split; [reflexivity|].
    split; intros NE; now destruct NE.
Qed.

(** A second call, on the cache left by a first one, with a list of which
    every entry now fails. *)
Lemma C3_cache_accumulates_witness :
  let first := sample_host (Some [sqlite_entry "app.db"]) in
  let h := sample_host (Some [sqlite_entry "missing.db"]) in
  let s := snd (canBeUsedInCurrentWorkspace first ConfigFileProvider) in
  let old := cached s in
  let r := canBeUsedInCurrentWorkspace h s in
  exists added,
    cache (snd r) = Some (old ++ added) /\
    map cache_id added =
      map identity (filter (passes h) (scanned (candidates h))) /\
    (candidates h <> [] -> existsb nameless (candidates h) = false ->
     fst r = Normal (0 <? length (old ++ added))%nat) /\
    (candidates h <> [] -> old <> [] ->
     (forall c, In c (candidates h) ->
                nameless c = false /\ passes h c = false) ->
     fst r = Normal true /\ cache (snd r) = Some old).
Proof.
  apply (C3_cache_accumulates
           (sample_host (Some [sqlite_entry "missing.db"]))
           (snd (canBeUsedInCurrentWorkspace
                   (sample_host (Some [sqlite_entry "app.db"]))
                   ConfigFileProvider))).
  reflexivity.
Defined.

(** Two resolutions in a row without [boot()] in between: the sqlite entry
    is cached twice, under the same identity, with two engine objects. *)
Example resolution_twice_duplicates :
  let h := sample_host (Some [sqlite_entry "app.db"]) in
  let s1 := snd (canBeUsedInCurrentWorkspace h ConfigFileProvider) in
  let s2 := snd (canBeUsedInCurrentWorkspace h s1) in
  map cache_id (cached s2) = [Some "app.db"; Some "app.db"] /\
  map entry_ref (cached s2) = [0; 1].
Proof. split; reflexivity. Qed.

(* ===================================================================== *)
(** ** Selection *)
(* ===================================================================== *)

(** C4: in a state the provider can reach, whose cache holds an entry under
    identity [A] and an entry under a different identity [B],
    [getDatabaseEngine({id: B})] returns the engine of the cache entry
    found under [B] (the entry [b] itself when no other entry has that
    identity), which is not the engine object cached under [A]; asked twice
    in a row it returns the same object, and all the two calls do to the
    outside world is to boot that object, once per call: the cache is
    untouched and no engine is created or checked. *)
Theorem C4_selection_by_identity (s : State)
  (c : list EngineProviderCache) (a b : EngineProviderCache)
  (A B : string) :
  reachable s ->
  cache s = Some c ->
  In a c -> In b c ->
  cache_id a = Some A -> cache_id b = Some B -> A <> B ->
  let o := Some {| option_id := B |} in
  let r1 := getDatabaseEngine o s in
  let r2 := getDatabaseEngine o (snd r1) in
  exists m,
    In m c /\ cache_id m = Some B /\
    ((forall x, In x c -> cache_id x = Some B -> x = b) -> m = b) /\
    fst r1 = Normal (Some (cache_engine m)) /\
    ref (cache_engine m) <> ref (cache_engine a) /\
    fst r2 = Normal (Some (cache_engine m)) /\
    events (snd r1) = events s ++ [EvBoot (ref (cache_engine m))] /\
    events (snd r2) =
      events s ++ [EvBoot (ref (cache_engine m)); EvBoot (ref (cache_engine m))] /\
    cache (snd r2) = cache s /\
    next_ref (snd r2) = next_ref s /\
    engine (snd r2) = Some (cache_engine m).
Proof.
  intros R C Ia Ib Ea Eb D o r1 r2.
  destruct (find_id_is_some B c b Ib Eb) as [m F].
  destruct (find_id_is _ _ _ F) as [Im Em].
  assert (L1 : lookup s B = Some m) by (unfold lookup; now rewrite C).
  assert (H1 : r1 = (Normal (Some (cache_engine m)),
                     logged (selected s (cache_engine m))
                       [EvBoot (ref (cache_engine m))]))
    by (apply (getDatabaseEngine_found s {| option_id := B |} m L1)).
  assert (L2 : lookup (snd r1) B = Some m)
    by (rewrite H1; unfold lookup; simpl; now rewrite C).
  assert (H2 : r2 = (Normal (Some (cache_engine m)),
                     logged (selected (snd r1) (cache_engine m))
                       [EvBoot (ref (cache_engine m))]))
    by (apply (getDatabaseEngine_found (snd r1) {| option_id := B |} m L2)).
  exists m. rewrite H2, H1. cbn [fst snd logged selected engine cache events next_ref].
  repeat split; auto.
  - intros E. pose proof (reachable_wf s R) as W. unfold cache_wf in W.
    rewrite C in W. destruct W as [N _].
    assert (m = a) by (apply (NoDup_map_inj entry_ref c); auto).
    subst m. rewrite Ea in Em. injection Em as ->. now apply D.
  - now rewrite <- app_assoc.
Qed.

(** After one resolution of a sqlite entry and a mysql entry. *)
Lemma C4_selection_by_identity_witness :
  let l := [sqlite_entry "app.db";
            server_entry "mysql" (Some "main") "localhost"] in
  let s := after (CallCanBeUsed (sample_host (Some l))) ConfigFileProvider in
  let o := Some {| option_id := "main" |} in
  let r1 := getDatabaseEngine o s in
  let r2 := getDatabaseEngine o (snd r1) in
  fst r1 = Normal (Some {| ref := 1; class := MysqlEngine {| handle := 1 |} |}) /\
  fst r2 = fst r1 /\
  exists m,
    In m (cached s) /\ cache_id m = Some "main" /\
    ((forall x, In x (cached s) -> cache_id x = Some "main" ->
                x = nth 1 (cached s) x) -> m = nth 1 (cached s) m) /\
    fst r1 = Normal (Some (cache_engine m)) /\
    ref (cache_engine m) <> 0 /\
    fst r2 = Normal (Some (cache_engine m)) /\
    events (snd r1) = events s ++ [EvBoot (ref (cache_engine m))] /\
    events (snd r2) =
      events s ++ [EvBoot (ref (cache_engine m)); EvBoot (ref (cache_engine m))] /\
    cache (snd r2) = cache s /\
    next_ref (snd r2) = next_ref s /\
    engine (snd r2) = Some (cache_engine m).
Proof.
  split; [reflexivity|]. split; [reflexivity|].
  apply (C4_selection_by_identity
           (after (CallCanBeUsed
                     (sample_host
                        (Some [sqlite_entry "app.db";
                               server_entry "mysql" (Some "main") "localhost"])))
              ConfigFileProvider)
           _
           {| cache_id := Some "app.db";
              cache_description := Some "app.db";
              cache_details := Some "app.db";
              cache_engine := {| ref := 0; class := SqliteJsEngine "app.db" |} |}
           {| cache_id := Some "main";
              cache_description := Some "main";
              cache_details := None;
              cache_engine :=
                {| ref := 1; class := MysqlEngine {| handle := 1 |} |} |}
           "app.db" "main").
  - apply reachable_call, reachable_init.
  - reflexivity.
  - simpl. auto.
  - simpl. auto.
  - reflexivity.
  - reflexivity.
  - discriminate.
Defined.

(** C5: [boot()] always completes, and leaves both [cache] and [engine]
    unset; a [getDatabaseEngine] call made next yields no engine, silently
    when it has no option and after the lookup error when it has one. *)
Theorem C5_boot_resets (s : State) :
  boot s =
    (Normal tt,
     {| engine := None; cache := None;
        events := events s; next_ref := next_ref s |}) /\
  getDatabaseEngine None (snd (boot s)) = (Normal None, snd (boot s)) /\
  forall o : EngineProviderOption,
    getDatabaseEngine (Some o) (snd (boot s)) =
    (Normal None,
     {| engine := None; cache := None;
        events := events s ++
                  [EvShowErrorMessage
                     (String.concat ""
                        ["Could not find option with id "; option_id o])];
        next_ref := next_ref s |}).
Proof.
  split; [reflexivity|]. split; [reflexivity|]. intros o. reflexivity.
Qed.

(** C6: when the config reader gives [undefined] or an empty list,
    [canBeUsedInCurrentWorkspace] returns [false] having done nothing but
    read the config: no engine is created, no collaborator is asked to
    validate anything, and the provider's fields are as they were; an unset
    cache stays unset, and is not replaced by an empty list. *)
Theorem C6_nothing_to_resolve (h : Host) (s : State) :
  getConfigFileContent h = None \/ getConfigFileContent h = Some [] ->
  canBeUsedInCurrentWorkspace h s =
    (Normal false,
     {| engine := engine s; cache := cache s;
        events := events s ++ [EvGetConfigFileContent];
        next_ref := next_ref s |}) /\
  (cache s = None ->
   cache (snd (canBeUsedInCurrentWorkspace h s)) = None /\
   cache (snd (canBeUsedInCurrentWorkspace h s)) <> Some []).
Proof.
  intros G. rewrite (canBeUsed_nothing h s G). split; [reflexivity|].
  cbn [snd cache]. intros ->. split; [reflexivity|discriminate].
Qed.

(** An empty list read by the exported provider. *)
Lemma C6_nothing_to_resolve_witness :
  canBeUsedInCurrentWorkspace (sample_host (Some [])) ConfigFileProvider =
    (Normal false,
     {| engine := None; cache := None;
        events := [EvGetConfigFileContent]; next_ref := 0 |}) /\
  (cache ConfigFileProvider = None ->
   cache (snd (canBeUsedInCurrentWorkspace (sample_host (Some []))
                 ConfigFileProvider)) = None /\
   cache (snd (canBeUsedInCurrentWorkspace (sample_host (Some []))
                 ConfigFileProvider)) <> Some []).
Proof.
  apply (C6_nothing_to_resolve (sample_host (Some [])) ConfigFileProvider).
  right. reflexivity.
Defined.

(** C9: when an engine is selected and the identity asked for is not in the
    cache (or the cache is unset), [getDatabaseEngine({id: X})] shows the
    lookup error and returns nothing, leaving the cache and the selected
    engine as they were; a call without option made next boots that engine
    and returns it. *)
Theorem C9_lookup_miss_keeps_selection (s : State) (e : DatabaseEngine)
  (X : string) :
  engine s = Some e ->
  (forall c x, cache s = Some c -> In x c -> cache_id x <> Some X) ->
  let r1 := getDatabaseEngine (Some {| option_id := X |}) s in
  let r2 := getDatabaseEngine None (snd r1) in
  fst r1 = Normal None /\
  cache (snd r1) = cache s /\
  engine (snd r1) = Some e /\
  next_ref (snd r1) = next_ref s /\
  events (snd r1) =
    events s ++
    [EvShowErrorMessage (String.concat "" ["Could not find option with id "; X])] /\
  fst r2 = Normal (Some e) /\
  engine (snd r2) = Some e /\
  cache (snd r2) = cache s /\
  events (snd r2) = events (snd r1) ++ [EvBoot (ref e)].
Proof.
  intros E A r1 r2.
  assert (L : lookup s X = None).
  { unfold lookup. destruct (cache s) as [c|] eqn:C; [|reflexivity].
    apply find_id_is_none. intros x I. now apply (A c). }
  assert (H1 : r1 = (Normal None,
                     logged s [EvShowErrorMessage (not_found_message X)]))
    by (apply (getDatabaseEngine_missing s {| option_id := X |} L)).
  subst r2. rewrite H1. cbn [fst snd].
  rewrite getDatabaseEngine_none. cbn [logged engine]. rewrite E.
  cbn [fst snd logged engine cache events next_ref].
  repeat split; auto.
Qed.

(** A miss after the mysql entry was selected. *)
Lemma C9_lookup_miss_keeps_selection_witness :
  let l := [sqlite_entry "app.db";
            server_entry "mysql" (Some "main") "localhost"] in
  let s0 := snd (canBeUsedInCurrentWorkspace (sample_host (Some l))
                   ConfigFileProvider) in
  let s := snd (getDatabaseEngine (Some {| option_id := "main" |}) s0) in
  let e := {| ref := 1; class := MysqlEngine {| handle := 1 |} |} in
  let r1 := getDatabaseEngine (Some {| option_id := "other" |}) s in
  let r2 := getDatabaseEngine None (snd r1) in
  fst r1 = Normal None /\
  cache (snd r1) = cache s /\
  engine (snd r1) = Some e /\
  next_ref (snd r1) = next_ref s /\
  events (snd r1) =
    events s ++
    [EvShowErrorMessage
       (String.concat "" ["Could not find option with id "; "other"])] /\
  fst r2 = Normal (Some e) /\
  engine (snd r2) = Some e /\
  cache (snd r2) = cache s /\
  events (snd r2) = events (snd r1) ++ [EvBoot (ref e)].
Proof.
  apply (C9_lookup_miss_keeps_selection
           (snd (getDatabaseEngine (Some {| option_id := "main" |})
                   (snd (canBeUsedInCurrentWorkspace
                           (sample_host
                              (Some [sqlite_entry "app.db";
                                     server_entry "mysql" (Some "main")
                                       "localhost"]))
                           ConfigFileProvider))))
           {| ref := 1; class := MysqlEngine {| handle := 1 |} |}
           "other").
  - reflexivity.
  - intros c x C I. vm_compute in C. injection C as <-.
    simpl in I. destruct I as [<-|[<-|[]]]; discriminate.
Defined.

(* ===================================================================== *)
(** ** Resolution: entries that fail validation, entries of unknown type *)
(* ===================================================================== *)

Lemma passes_validated (h : Host) (c : Config) (r : nat) :
  passes h c = true -> exists e, validated h c r = Some e.
Proof.
  intros P. destruct (validated h c r) as [e|] eqn:V; [now exists e|].
  apply validated_passes in V. rewrite P in V. discriminate.
Qed.

(** C7, as the specification words it, fails: the message shown for a
    sqlite entry that fails validation is one fixed sentence, in which the
    path of the entry does not occur, and which is the same for any other
    failing sqlite entry; and for a server entry for which the connector
    gives no handle, the provider itself shows nothing. *)
Lemma C7_error_does_not_name_sqlite_entry :
  let c := sqlite_entry "missing.db" in
  let h := sample_host (Some [c]) in
  let r := canBeUsedInCurrentWorkspace h ConfigFileProvider in
  let c' := sqlite_entry "other.db" in
  let r' := canBeUsedInCurrentWorkspace (sample_host (Some [c']))
              ConfigFileProvider in
  let d := server_entry "mysql" (Some "main") "nowhere" in
  let q := canBeUsedInCurrentWorkspace (sample_host (Some [d]))
             ConfigFileProvider in
  passes h c = false /\
  messages (events (snd r)) =
    ["The SQLite database specified in your config file is not valid."] /\
  String.index 0 (path c)
    "The SQLite database specified in your config file is not valid." = None /\
  messages (events (snd r')) = messages (events (snd r)) /\
  passes (sample_host (Some [d])) d = false /\
  messages (events (snd q)) = [].
Proof.
  cbv zeta. repeat split; vm_compute; reflexivity.
Qed.

(** C7, amended: a descriptor that is not a nameless server entry and fails
    live validation adds no cache entry and does not stop the loop, which
    goes on with the next descriptor: the identities cached by the method
    are those of the passing descriptors before and after it.  The provider
    shows one message for it when the engine was built and found not okay:
    for a server entry that message carries the entry's name, for a sqlite
    entry it is a fixed sentence; when the connector gives no handle the
    provider shows none. *)
Theorem C7_validation_failure_is_entry_scoped (h : Host) (c : Config) :
  nameless c = false ->
  passes h c = false ->
  (forall rest s c0,
     cache s = Some c0 ->
     exists s',
       iteration h c s = (Normal Next, s') /\
       cache s' = cache s /\
       engine s' = engine s /\
       messages (events s') = messages (events s) ++ failure_messages h c /\
       for_of h (c :: rest) s = for_of h rest s') /\
  (forall l1 l2 s,
     getConfigFileContent h = Some (l1 ++ c :: l2) ->
     existsb nameless (l1 ++ c :: l2) = false ->
     exists now,
       cache (snd (canBeUsedInCurrentWorkspace h s)) = Some now /\
       map cache_id now =
         map cache_id (cached s) ++ map identity (filter (passes h) l1)
           ++ map identity (filter (passes h) l2)).
Proof.
  intros N P. split.
  - intros rest s c0 C. eexists. split; [|split; [|split; [|split]]].
    + apply (iteration_scanned h c s c0 C N).
    + cbn [cache]. rewrite (proj2 (validated_passes h c (next_ref s)) P).
      now rewrite app_nil_r.
    + reflexivity.
    + cbn [events]. rewrite messages_app. f_equal.
      unfold trace, failure_messages. rewrite P.
      destruct (type c =? "sqlite"); [reflexivity|].
      destruct (is_server c); [|reflexivity].
      now destruct (connection_of h c).
    + simpl. unfold and_then.
      now rewrite (bind_run _ _ _ _ _ (iteration_scanned h c s c0 C N)).
  - intros l1 l2 s G E.
    assert (NE : l1 ++ c :: l2 <> []) by (now destruct l1).
    rewrite (canBeUsed_run h _ s G NE). cbn [snd cache].
    eexists. split; [reflexivity|].
    rewrite (scanned_all _ E), map_app, resolved_ids, filter_app.
    simpl. rewrite P. now rewrite map_app.
Qed.

(** A sqlite entry that fails, between two entries that pass. *)
Lemma C7_validation_failure_is_entry_scoped_witness :
  let c := sqlite_entry "missing.db" in
  let l1 := [server_entry "mysql" (Some "main") "localhost"] in
  let l2 := [sqlite_entry "app.db"] in
  let h := sample_host (Some (l1 ++ c :: l2)) in
  cache (snd (canBeUsedInCurrentWorkspace h ConfigFileProvider)) =
    Some [{| cache_id := Some "main";
             cache_description := Some "main";
             cache_details := None;
             cache_engine :=
               {| ref := 0; class := MysqlEngine {| handle := 1 |} |} |};
          {| cache_id := Some "app.db";
             cache_description := Some "app.db";
             cache_details := Some "app.db";
             cache_engine :=
               {| ref := 2; class := SqliteJsEngine "app.db" |} |}] /\
  (forall rest s c0,
     cache s = Some c0 ->
     exists s',
       iteration h c s = (Normal Next, s') /\
       cache s' = cache s /\
       engine s' = engine s /\
       messages (events s') = messages (events s) ++ failure_messages h c /\
       for_of h (c :: rest) s = for_of h rest s') /\
  (forall l1 l2 s,
     getConfigFileContent h = Some (l1 ++ c :: l2) ->
     existsb nameless (l1 ++ c :: l2) = false ->
     exists now,
       cache (snd (canBeUsedInCurrentWorkspace h s)) = Some now /\
       map cache_id now =
         map cache_id (cached s) ++ map identity (filter (passes h) l1)
           ++ map identity (filter (passes h) l2)).
Proof.
  split; [reflexivity|].
  apply (C7_validation_failure_is_entry_scoped
           (sample_host
              (Some ([server_entry "mysql" (Some "main") "localhost"] ++
                     sqlite_entry "missing.db" :: [sqlite_entry "app.db"])))
           (sqlite_entry "missing.db")).
  - reflexivity.
  - reflexivity.
Defined.

(** C8: on a provider whose cache is unset, a config made of one sqlite
    entry and one mysql entry with a name, the path and the name being
    different and both entries passing validation, gives [true] and a cache
    of exactly two entries, in the order of the list, the sqlite one under
    its path and the mysql one under its name; [getDatabaseEngine] by the
    path returns the sqlite engine and by the name the mysql engine. *)
Theorem C8_sqlite_and_mysql_round_trip (h : Host) (sq my : Config)
  (n : string) (s : State) :
  type sq = "sqlite" ->
  type my = "mysql" -> name my = Some n -> n <> "" ->
  path sq <> n ->
  passes h sq = true -> passes h my = true ->
  getConfigFileContent h = Some [sq; my] \/
  getConfigFileContent h = Some [my; sq] ->
  cache s = None ->
  let r := canBeUsedInCurrentWorkspace h s in
  exists e1 e2 k,
    fst r = Normal true /\
    (getConfigFileContent h = Some [sq; my] -> cache (snd r) = Some [e1; e2]) /\
    (getConfigFileContent h = Some [my; sq] -> cache (snd r) = Some [e2; e1]) /\
    cache_id e1 = Some (path sq) /\
    cache_id e2 = Some n /\
    class (cache_engine e1) = SqliteJsEngine (path sq) /\
    connection_of h my = Some k /\
    class (cache_engine e2) = MysqlEngine k /\
    ref (cache_engine e1) <> ref (cache_engine e2) /\
    fst (getDatabaseEngine (Some {| option_id := path sq |}) (snd r)) =
      Normal (Some (cache_engine e1)) /\
    fst (getDatabaseEngine (Some {| option_id := n |}) (snd r)) =
      Normal (Some (cache_engine e2)).
Proof.
  intros Ts Tm Nm NE D Ps Pm G C r.
  assert (Wsq : nameless sq = false)
    by (unfold nameless, is_server; now rewrite Ts).
  assert (Wmy : nameless my = false).
  { unfold nameless, is_server, falsy. rewrite Tm, Nm. simpl.
    now apply String.eqb_neq. }
  assert (Cs : class_of h sq = Some (SqliteJsEngine (path sq)))
    by (unfold class_of; now rewrite Ts).
  assert (Is : identity sq = Some (path sq))
    by (unfold identity; now rewrite Ts).
  assert (Im : identity my = Some n)
    by (unfold identity; now rewrite Tm).
  assert (Km : exists k, connection_of h my = Some k /\
                         class_of h my = Some (MysqlEngine k)).
  { unfold passes in Pm. unfold class_of. rewrite Tm in *. simpl in *.
    destruct (connection_of h my) as [k|]; [|discriminate].
    now exists k. }
  destruct Km as (k & Kc & Cm).
  assert (Fs : forall e1 e2, cache_id e1 = Some (path sq) ->
                             cache_id e2 = Some n ->
               (find (id_is (path sq)) [e1; e2] = Some e1 /\
                find (id_is n) [e1; e2] = Some e2) /\
               (find (id_is (path sq)) [e2; e1] = Some e1 /\
                find (id_is n) [e2; e1] = Some e2)).
  { intros e1 e2 E1 E2. simpl. unfold id_is. rewrite E1, E2.
    rewrite !String.eqb_refl.
    rewrite (proj2 (String.eqb_neq (path sq) n) D).
    assert (D' : n <> path sq) by (intros E; now apply D).
    rewrite (proj2 (String.eqb_neq n (path sq)) D'). auto. }
  assert (Sel : forall s' c i m, cache s' = Some c ->
                  find (id_is i) c = Some m ->
                  fst (getDatabaseEngine (Some {| option_id := i |}) s') =
                  Normal (Some (cache_engine m))).
  { intros s' c i m C' F.
    rewrite (getDatabaseEngine_found s' {| option_id := i |} m);
      [reflexivity|]. unfold lookup. now rewrite C'. }
  destruct G as [G|G].
  - destruct (passes_validated h sq (next_ref s) Ps) as [e1 V1].
    destruct (passes_validated h my (next_ref s + allocs h sq) Pm) as [e2 V2].
    destruct (validated_entry _ _ _ _ V1) as (_ & I1 & R1 & K1 & A1).
    destruct (validated_entry _ _ _ _ V2) as (_ & I2 & R2 & K2 & A2).
    rewrite Is in I1. rewrite Im in I2.
    rewrite Cs in K1. rewrite Cm in K2.
    injection K1 as K1. injection K2 as K2.
    assert (Run : r = (Normal true,
                       {| engine := engine s; cache := Some [e1; e2];
                          events := events s ++ EvGetConfigFileContent ::
                                      traces h [sq; my] (next_ref s);
                          next_ref := next_ref s + allocated h [sq; my] |})).
    { subst r. rewrite (canBeUsed_run h [sq; my] s G) by discriminate.
      simpl. rewrite Wsq, Wmy. simpl. rewrite C, V1, V2. reflexivity. }
    exists e1, e2, k. rewrite Run. cbn [fst snd cache].
    destruct (Fs e1 e2 I1 I2) as [[F1 F2] _].
    repeat split; auto.
    + intros X. rewrite G in X. injection X as X _.
      rewrite X, Tm in Ts || rewrite <- X, Tm in Ts. discriminate Ts.
    + unfold entry_ref in R1, R2. lia.
    + now apply (Sel _ [e1; e2]).
    + now apply (Sel _ [e1; e2]).
  - destruct (passes_validated h my (next_ref s) Pm) as [e2 V2].
    destruct (passes_validated h sq (next_ref s + allocs h my) Ps) as [e1 V1].
    destruct (validated_entry _ _ _ _ V1) as (_ & I1 & R1 & K1 & A1).
    destruct (validated_entry _ _ _ _ V2) as (_ & I2 & R2 & K2 & A2).
    rewrite Is in I1. rewrite Im in I2.
    rewrite Cs in K1. rewrite Cm in K2.
    injection K1 as K1. injection K2 as K2.
    assert (Run : r = (Normal true,
                       {| engine := engine s; cache := Some [e2; e1];
                          events := events s ++ EvGetConfigFileContent ::
                                      traces h [my; sq] (next_ref s);
                          next_ref := next_ref s + allocated h [my; sq] |})).
    { subst r. rewrite (canBeUsed_run h [my; sq] s G) by discriminate.
      simpl. rewrite Wsq, Wmy. simpl. rewrite C, V1, V2. reflexivity. }
    exists e1, e2, k. rewrite Run. cbn [fst snd cache].
    destruct (Fs e1 e2 I1 I2) as [_ [F1 F2]].
    repeat split; auto.
    + intros X. rewrite G in X. injection X as X _.
      rewrite X, Tm in Ts || rewrite <- X, Tm in Ts. discriminate Ts.
    + unfold entry_ref in R1, R2. lia.
    + now apply (Sel _ [e2; e1]).
    + now apply (Sel _ [e2; e1]).
Qed.

(** [app.db] and the mysql server [main] of the sample workspace. *)
Lemma C8_sqlite_and_mysql_round_trip_witness :
  let sq := sqlite_entry "app.db" in
  let my := server_entry "mysql" (Some "main") "localhost" in
  let h := sample_host (Some [sq; my]) in
  let r := canBeUsedInCurrentWorkspace h ConfigFileProvider in
  exists e1 e2 k,
    fst r = Normal true /\
    (getConfigFileContent h = Some [sq; my] -> cache (snd r) = Some [e1; e2]) /\
    (getConfigFileContent h = Some [my; sq] -> cache (snd r) = Some [e2; e1]) /\
    cache_id e1 = Some (path sq) /\
    cache_id e2 = Some "main" /\
    class (cache_engine e1) = SqliteJsEngine (path sq) /\
    connection_of h my = Some k /\
    class (cache_engine e2) = MysqlEngine k /\
    ref (cache_engine e1) <> ref (cache_engine e2) /\
    fst (getDatabaseEngine (Some {| option_id := path sq |}) (snd r)) =
      Normal (Some (cache_engine e1)) /\
    fst (getDatabaseEngine (Some {| option_id := "main" |}) (snd r)) =
      Normal (Some (cache_engine e2)).
Proof.
  apply (C8_sqlite_and_mysql_round_trip
           (sample_host
              (Some [sqlite_entry "app.db";
                     server_entry "mysql" (Some "main") "localhost"]))
           (sqlite_entry "app.db")
           (server_entry "mysql" (Some "main") "localhost")
           "main" ConfigFileProvider).
  - reflexivity.
  - reflexivity.
  - reflexivity.
  - discriminate.
  - discriminate.
  - reflexivity.
  - reflexivity.
  - left. reflexivity.
  - reflexivity.
Defined.

(** The loop does not read the config file. *)
Lemma for_of_with_content (h : Host) content (l : list Config) (s : State) :
  for_of (with_content h content) l s = for_of h l s.
Proof.
  revert s. induction l as [|c l IH]; intros s; [reflexivity|].
  simpl. unfold and_then, bind.
  change (iteration (with_content h content) c s) with (iteration h c s).
  destruct (iteration h c s) as [[[|b]|e] s']; auto.
Qed.

(** The method on two contents on which the loop does the same. *)
Lemma canBeUsed_same_loop (h : Host) (l l' : list Config) (s : State) :
  l <> [] -> l' <> [] ->
  (forall s1, for_of h l s1 = for_of h l' s1) ->
  canBeUsedInCurrentWorkspace (with_content h (Some l)) s =
  canBeUsedInCurrentWorkspace (with_content h (Some l')) s.
Proof.
  intros NE NE' F. unfold canBeUsedInCurrentWorkspace.
  cbn [getConfigFileContent with_content].
  destruct l as [|x l]; [contradiction|].
  destruct l' as [|x' l']; [contradiction|].
  change (length (x :: l) =? 0)%nat with false.
  change (length (x' :: l') =? 0)%nat with false. cbv iota.
  rewrite !(bind_run (emit EvGetConfigFileContent) _ s tt _ eq_refl).
  rewrite !(bind_run get _ _ _ _ eq_refl).
  set (s0 := snd (emit EvGetConfigFileContent s)).
  assert (I : exists s1,
             match cache s0 with
             | Some _ => ret tt
             | None => set_cache (Some [])
             end s0 = (Normal tt, s1))
    by (destruct (cache s0); eexists; reflexivity).
  destruct I as [s1 I].
  rewrite !(bind_run _ _ _ _ _ I).
  unfold bind at 1 3. rewrite !for_of_with_content, F. reflexivity.
Qed.

(** C10: a descriptor whose tag is none of ['sqlite'], ['mysql'],
    ['mariadb'], ['postgres'] is skipped in silence: its turn of the loop
    leaves the state as it is (no message, no engine, no cache entry), the
    loop and the method behave on a list that contains it as on the list
    without it, and when it is the only descriptor the method only reads
    the config, sets an unset cache to the empty list, and answers from the
    length of the cache it found. *)
Theorem C10_unknown_type_is_skipped (h : Host) (c : Config) :
  unknown_type c = true ->
  (forall s, iteration h c s = (Normal Next, s)) /\
  (forall l1 l2 s, for_of h (l1 ++ c :: l2) s = for_of h (l1 ++ l2) s) /\
  (forall l1 l2 s,
     l1 ++ l2 <> [] ->
     canBeUsedInCurrentWorkspace (with_content h (Some (l1 ++ c :: l2))) s =
     canBeUsedInCurrentWorkspace (with_content h (Some (l1 ++ l2))) s) /\
  (forall s,
     canBeUsedInCurrentWorkspace (with_content h (Some [c])) s =
     (Normal (0 <? length (cached s))%nat,
      {| engine := engine s; cache := Some (cached s);
         events := events s ++ [EvGetConfigFileContent];
         next_ref := next_ref s |})).
Proof.
  intros U.
  assert (L : forall l1 l2 s,
             for_of h (l1 ++ c :: l2) s = for_of h (l1 ++ l2) s).
  { induction l1 as [|x l1 IH]; intros l2 s; simpl.
    - unfold and_then. now rewrite (bind_run _ _ _ _ _ (iteration_unknown h c s U)).
    - unfold and_then, bind.
      destruct (iteration h x s) as [[[|b]|e] s']; auto. }
  split; [|split; [|split]].
  - intros s. now apply iteration_unknown.
  - exact L.
  - intros l1 l2 s NE. apply canBeUsed_same_loop; auto.
    now destruct l1.
  - intros s. unfold canBeUsedInCurrentWorkspace, cached.
    cbn [getConfigFileContent with_content length Nat.eqb].
    rewrite (bind_run (emit EvGetConfigFileContent) _ s tt _ eq_refl).
    rewrite (bind_run get _ _ _ _ eq_refl).
    cbn [cache]. destruct (cache s) as [c0|] eqn:C.
    + rewrite (bind_run (ret tt) _ _ _ _ eq_refl).
      cbn [for_of]. unfold and_then at 1.
      rewrite (bind_run _ _ _ _ _
                 (bind_run _ _ _ _ _ (iteration_unknown h c _ U))).
      rewrite (bind_run get _ _ _ _ eq_refl). reflexivity.
    + rewrite (bind_run (set_cache (Some [])) _ _ _ _ eq_refl).
      cbn [for_of]. unfold and_then at 1.
      rewrite (bind_run _ _ _ _ _
                 (bind_run _ _ _ _ _ (iteration_unknown h c _ U))).
      rewrite (bind_run get _ _ _ _ eq_refl). reflexivity.
Qed.

(** An ['oracle'] entry among the entries of the sample workspace. *)
Lemma C10_unknown_type_is_skipped_witness :
  let c := server_entry "oracle" None "localhost" in
  let h := sample_host None in
  canBeUsedInCurrentWorkspace
    (with_content h (Some [sqlite_entry "app.db"; c])) ConfigFileProvider =
  canBeUsedInCurrentWorkspace
    (with_content h (Some [sqlite_entry "app.db"])) ConfigFileProvider /\
  ((forall s, iteration h c s = (Normal Next, s)) /\
   (forall l1 l2 s, for_of h (l1 ++ c :: l2) s = for_of h (l1 ++ l2) s) /\
   (forall l1 l2 s,
      l1 ++ l2 <> [] ->
      canBeUsedInCurrentWorkspace (with_content h (Some (l1 ++ c :: l2))) s =
      canBeUsedInCurrentWorkspace (with_content h (Some (l1 ++ l2))) s) /\
   (forall s,
      canBeUsedInCurrentWorkspace (with_content h (Some [c])) s =
      (Normal (0 <? length (cached s))%nat,
       {| engine := engine s; cache := Some (cached s);
          events := events s ++ [EvGetConfigFileContent];
          next_ref := next_ref s |}))).
Proof.
  split; [reflexivity|].
  apply (C10_unknown_type_is_skipped (sample_host None)
           (server_entry "oracle" None "localhost")).
  reflexivity.
Defined.

(* ===================================================================== *)
(** ** Further properties of the provider *)
(* ===================================================================== *)

(** The two ways [canBeUsedInCurrentWorkspace] can go. *)
Lemma canBeUsed_cases (h : Host) (s : State) :
  (candidates h = [] /\
   canBeUsedInCurrentWorkspace h s =
   (Normal false, logged s [EvGetConfigFileContent])) \/
  (candidates h <> [] /\
   canBeUsedInCurrentWorkspace h s =
   (Normal (if existsb nameless (candidates h) then false
            else (0 <? length (cached s ++
                     resolved h (scanned (candidates h)) (next_ref s)))%nat),
    {| engine := engine s;
       cache := Some (cached s ++
                      resolved h (scanned (candidates h)) (next_ref s));
       events := events s ++ EvGetConfigFileContent ::
                   traces h (candidates h) (next_ref s);
       next_ref := next_ref s + allocated h (scanned (candidates h)) |})).
Proof.
  unfold candidates. destruct (getConfigFileContent h) as [[|c l]|] eqn:G.
  - left. split; [reflexivity|]. now apply canBeUsed_nothing; right.
  - right. split; [discriminate|].
    apply (canBeUsed_run h (c :: l) s G). discriminate.
  - left. split; [reflexivity|]. now apply canBeUsed_nothing; left.
Qed.

(** What [getDatabaseEngine] does, in every case. *)
Lemma getDatabaseEngine_cases (o : option EngineProviderOption) (s : State) :
  (exists e, getDatabaseEngine o s =
             (Normal (Some e), logged (selected s e) [EvBoot (ref e)]) /\
             (match o with
              | Some i => exists m, lookup s (option_id i) = Some m /\
                                    cache_engine m = e
              | None => engine s = Some e
              end)) \/
  (exists i, o = Some i /\ lookup s (option_id i) = None /\
             getDatabaseEngine o s =
             (Normal None,
              logged s [EvShowErrorMessage (not_found_message (option_id i))])) \/
  (o = None /\ engine s = None /\ getDatabaseEngine o s = (Normal None, s)).
Proof.
  destruct o as [i|].
  - destruct (lookup s (option_id i)) as [m|] eqn:L.
    + left. exists (cache_engine m). split.
      * apply (getDatabaseEngine_found s i m L).
      * now exists m.
    + right. left. exists i. split; [reflexivity|]. split; [exact L|].
      apply (getDatabaseEngine_missing s i L).
  - rewrite getDatabaseEngine_none. destruct (engine s) as [e|] eqn:E.
    + left. exists e. split; [|reflexivity].
      f_equal. unfold logged, selected. cbn [engine cache events next_ref].
      now rewrite E.
    + right. right. auto.
Qed.

Lemma lookup_in (s : State) (i : string) m :
  lookup s i = Some m ->
  exists c, cache s = Some c /\ In m c /\ cache_id m = Some i.
Proof.
  unfold lookup. destruct (cache s) as [c|]; [|discriminate].
  intros F. exists c. split; [reflexivity|]. now apply find_id_is.
Qed.

Lemma find_app_first {A} (f : A -> bool) (l1 l2 : list A) x :
  find f l1 = Some x -> find f (l1 ++ l2) = Some x.
Proof.
  induction l1 as [|a l1 IH]; simpl; [discriminate|].
  destruct (f a); auto.
Qed.

(** The entry a descriptor yields has the shape of its kind. *)
Lemma validated_ok (h : Host) (c : Config) (r : nat) e :
  nameless c = false -> validated h c r = Some e -> entry_ok e.
Proof.
  unfold nameless, is_server, validated, entry_ok, class_of, passes, identity.
  intros N. by_type c N.
  - destruct (_ && _); [|discriminate]. intros V. injection V as <-.
    simpl. auto.
  - destruct (connection_of h c) as [k|]; [|discriminate].
    destruct (_ && _); [|discriminate]. intros V. injection V as <-.
    simpl. destruct (name c) as [n|]; [|discriminate N].
    exists n. simpl in N. apply String.eqb_neq in N. auto.
  - destruct (connection_of h c) as [k|]; [|discriminate].
    destruct (_ && _); [|discriminate]. intros V. injection V as <-.
    simpl. destruct (name c) as [n|]; [|discriminate N].
    exists n. simpl in N. apply String.eqb_neq in N. auto.
  - destruct (connection_of h c) as [k|]; [|discriminate].
    destruct (_ && _); [|discriminate]. intros V. injection V as <-.
    simpl. destruct (name c) as [n|]; [|discriminate N].
    exists n. simpl in N. apply String.eqb_neq in N. auto.
  - discriminate.
Qed.

Lemma resolved_ok (h : Host) (l : list Config) (r : nat) e :
  In e (resolved h (scanned l) r) -> entry_ok e.
Proof.
  revert r. induction l as [|c l IH]; intros r; simpl; [contradiction|].
  destruct (nameless c) eqn:N; simpl; [contradiction|].
  destruct (validated h c r) as [e0|] eqn:V.
  - intros [<-|I]; [now apply (validated_ok h c r)|now apply IH in I].
  - apply IH.
Qed.

(** The awaited calls on a descriptor that yields an entry. *)
Lemma validated_checked (h : Host) (c : Config) (r : nat) e :
  validated h c r = Some e ->
  In (EvIsOkay r) (trace h c r) /\
  (is_sqlite c = true -> In (EvBoot r) (trace h c r)) /\
  (is_sqlite c = false -> ~ In (EvBoot r) (trace h c r)).
Proof.
  intros V. destruct (validated_entry _ _ _ _ V) as (P & _).
  unfold trace, is_sqlite. rewrite P. unfold passes in P.
  destruct (type c =? "sqlite") eqn:T.
  - simpl. split; [auto|]. split; [auto|discriminate].
  - destruct (is_server c) eqn:S.
    + unfold is_server in S.
      assert (K : exists k, connection_of h c = Some k).
      { destruct (connection_of h c) as [k|]; [now exists k|].
        destruct ((type c =? "mysql") || (type c =? "mariadb")); [discriminate|].
        destruct (type c =? "postgres"); discriminate. }
      destruct K as [k ->]. simpl. split; [auto|]. split; [discriminate|].
      intros _ [X|[X|[]]]; discriminate X.
    + unfold is_server in S.
      apply orb_false_elim in S. destruct S as [S S3].
      rewrite S, S3 in P. discriminate.
Qed.

Lemma resolved_checked (h : Host) (l : list Config) (r : nat) e :
  In e (resolved h (scanned l) r) ->
  In (EvIsOkay (entry_ref e)) (traces h l r).
Proof.
  revert r. induction l as [|c l IH]; intros r; simpl; [contradiction|].
  destruct (nameless c) eqn:N; simpl; [contradiction|].
  destruct (validated h c r) as [e0|] eqn:V.
  - intros [<-|I].
    + destruct (validated_entry _ _ _ _ V) as (_ & _ & -> & _).
      apply in_or_app. left. now apply (validated_checked h c r e0).
    + apply in_or_app. right. now apply IH.
  - intros I. apply in_or_app. right. now apply IH.
Qed.

Lemma boots_app (a b : list Event) : boots (a ++ b) = boots a ++ boots b.
Proof.
  induction a as [|[| | | |] a IH]; simpl; rewrite ?IH; reflexivity.
Qed.

Lemma boots_trace (h : Host) (c : Config) (r : nat) :
  boots (trace h c r) = if is_sqlite c then [r] else [].
Proof.
  unfold trace, is_sqlite. destruct (type c =? "sqlite").
  - simpl. now destruct (passes h c).
  - destruct (is_server c); [|reflexivity]. simpl.
    destruct (connection_of h c); [|reflexivity]. simpl.
    now destruct (passes h c).
Qed.

Lemma boots_traces (h : Host) (l : list Config) (r : nat) :
  length (boots (traces h l r)) = length (filter is_sqlite (scanned l)).
Proof.
  revert r. induction l as [|c l IH]; intros r; simpl; [reflexivity|].
  destruct (nameless c) eqn:N; simpl; [reflexivity|].
  rewrite boots_app, length_app, boots_trace, IH.
  now destruct (is_sqlite c).
Qed.

Lemma messages_trace_passes (h : Host) (c : Config) (r : nat) :
  passes h c = true -> messages (trace h c r) = [].
Proof.
  intros P. unfold trace. rewrite P.
  destruct (type c =? "sqlite"); [reflexivity|].
  destruct (is_server c); [|reflexivity]. simpl.
  now destruct (connection_of h c).
Qed.

Lemma filter_all {A} (f : A -> bool) (l : list A) :
  (forall x, In x l -> f x = true) -> filter f l = l.
Proof.
  induction l as [|a l IH]; simpl; intros F; [reflexivity|].
  rewrite (F a (or_introl eq_refl)). f_equal. apply IH.
  intros x I. apply F. now right.
Qed.

Lemma not_nameless_list (l : list Config) :
  (forall c, In c l -> nameless c = false) -> existsb nameless l = false.
Proof.
  intros W. apply not_true_is_false. intros E. apply existsb_exists in E.
  destruct E as (c & I & N). rewrite (W c I) in N. discriminate.
Qed.

Lemma messages_traces_pass (h : Host) (l : list Config) (r : nat) :
  (forall c, In c l -> nameless c = false /\ passes h c = true) ->
  messages (traces h l r) = [].
Proof.
  revert r. induction l as [|c l IH]; intros r A; simpl; [reflexivity|].
  destruct (A c (or_introl eq_refl)) as [N P]. rewrite N.
  rewrite messages_app, (messages_trace_passes h c r P), IH; [reflexivity|].
  intros x I. apply A. now right.
Qed.

(** The entries of a reachable cache have the shape the resolvers give. *)
Lemma reachable_entries_ok (s : State) :
  reachable s -> forall c m, cache s = Some c -> In m c -> entry_ok m.
Proof.
  induction 1 as [|k s R IH]; intros c m C I; [discriminate C|].
  destruct k as [|h|o]; simpl in C.
  - discriminate C.
  - destruct (canBeUsed_cases h s) as [[_ Q]|[_ Q]]; rewrite Q in C;
      cbn [snd cache logged] in C.
    + now apply (IH c).
    + injection C as <-. apply in_app_or in I. destruct I as [I|I].
      * unfold cached in I. destruct (cache s) as [c0|] eqn:C0;
          [now apply (IH c0)|contradiction].
      * now apply (resolved_ok h _ _ _ I).
  - destruct (getDatabaseEngine_cache o s) as [Q _]. rewrite Q in C.
    now apply (IH c).
Qed.

(** X1: whatever calls were made, the selected engine is the engine of an
    entry of the cache: [engine] is never set while [cache] is unset, and
    never holds an object that resolution did not validate. *)
Theorem selected_engine_is_cached (s : State) (e : DatabaseEngine) :
  reachable s ->
  engine s = Some e ->
  exists c m, cache s = Some c /\ In m c /\ cache_engine m = e.
Proof.
  intros R. revert e. induction R as [|k s R IH]; intros e E;
    [discriminate E|].
  destruct k as [|h|o]; simpl in E |- *.
  - discriminate E.
  - destruct (canBeUsed_cases h s) as [[_ Q]|[_ Q]]; rewrite Q in E |- *;
      cbn [snd engine cache logged] in E |- *.
    + now apply IH.
    + destruct (IH e E) as (c0 & m & C & I & M).
      exists (c0 ++ resolved h (scanned (candidates h)) (next_ref s)), m.
      unfold cached. rewrite C. split; [reflexivity|].
      split; [apply in_or_app; now left|exact M].
  - destruct (getDatabaseEngine_cases o s)
      as [(e' & Q & W)|[(i & -> & L & Q)|(-> & En & Q)]];
      rewrite Q in E |- *; cbn [snd engine cache logged selected] in E |- *.
    + injection E as <-. destruct o as [i|].
      * destruct W as (m & L & M). destruct (lookup_in _ _ _ L) as (c & C & I & _).
        now exists c, m.
      * now apply IH.
    + now apply IH.
    + now apply IH.
Qed.

(** The mysql engine selected after one resolution. *)
Lemma selected_engine_is_cached_witness :
  let l := [sqlite_entry "app.db";
            server_entry "mysql" (Some "main") "localhost"] in
  let s := after (CallGetDatabaseEngine (Some {| option_id := "main" |}))
             (after (CallCanBeUsed (sample_host (Some l))) ConfigFileProvider) in
  exists c m, cache s = Some c /\ In m c /\
              cache_engine m =
              {| ref := 1; class := MysqlEngine {| handle := 1 |} |}.
Proof.
  apply (selected_engine_is_cached
           (after (CallGetDatabaseEngine (Some {| option_id := "main" |}))
              (after (CallCanBeUsed
                        (sample_host
                           (Some [sqlite_entry "app.db";
                                  server_entry "mysql" (Some "main")
                                    "localhost"])))
                 ConfigFileProvider))).
  - apply reachable_call, reachable_call, reachable_init.
  - reflexivity.
Defined.

(** X2: whatever calls were made, every entry of the cache has the shape of
    its kind (a sqlite engine under its own path, a server engine under a
    non-empty name) and an identity that [getDatabaseEngine] finds: asked
    for that identity, the method returns the engine of the first entry
    cached under it. *)
Theorem cached_entry_is_addressable (s : State)
  (c : list EngineProviderCache) (m : EngineProviderCache) :
  reachable s ->
  cache s = Some c ->
  In m c ->
  entry_ok m /\
  exists i m',
    cache_id m = Some i /\
    find (id_is i) c = Some m' /\
    cache_id m' = Some i /\
    fst (getDatabaseEngine (Some {| option_id := i |}) s) =
      Normal (Some (cache_engine m')).
Proof.
  intros R C I. pose proof (reachable_entries_ok s R c m C I) as O.
  split; [exact O|].
  assert (Id : exists i, cache_id m = Some i).
  { unfold entry_ok in O. destruct (class (cache_engine m)).
    - destruct O as [-> _]. now eexists.
    - destruct O as (n & _ & -> & _). now eexists.
    - destruct O as (n & _ & -> & _). now eexists. }
  destruct Id as [i Id].
  destruct (find_id_is_some i c m I Id) as [m' F].
  exists i, m'. split; [exact Id|]. split; [exact F|].
  split; [now apply (find_id_is i c m')|].
  rewrite (getDatabaseEngine_found s {| option_id := i |} m');
    [reflexivity|]. unfold lookup. now rewrite C.
Qed.

(** The sqlite entry of a cache of two. *)
Lemma cached_entry_is_addressable_witness :
  let l := [sqlite_entry "app.db";
            server_entry "mysql" (Some "main") "localhost"] in
  let s := after (CallCanBeUsed (sample_host (Some l))) ConfigFileProvider in
  let m := {| cache_id := Some "app.db";
              cache_description := Some "app.db";
              cache_details := Some "app.db";
              cache_engine := {| ref := 0; class := SqliteJsEngine "app.db" |} |} in
  entry_ok m /\
  exists i m',
    cache_id m = Some i /\
    find (id_is i) (cached s) = Some m' /\
    cache_id m' = Some i /\
    fst (getDatabaseEngine (Some {| option_id := i |}) s) =
      Normal (Some (cache_engine m')).
Proof.
  apply (cached_entry_is_addressable
           (after (CallCanBeUsed
                     (sample_host
                        (Some [sqlite_entry "app.db";
                               server_entry "mysql" (Some "main") "localhost"])))
              ConfigFileProvider)).
  - apply reachable_call, reachable_init.
  - reflexivity.
  - simpl. auto.
Defined.

(** X3: whatever calls were made, every engine of the cache was found okay
    before it was cached: the log holds the [isOkay()] call on that very
    object. *)
Theorem cached_engines_were_checked (s : State)
  (c : list EngineProviderCache) (m : EngineProviderCache) :
  reachable s ->
  cache s = Some c ->
  In m c ->
  In (EvIsOkay (ref (cache_engine m))) (events s).
Proof.
  intros R. revert c m. induction R as [|k s R IH]; intros c m C I;
    [discriminate C|].
  destruct k as [|h|o]; simpl in C |- *.
  - discriminate C.
  - destruct (canBeUsed_cases h s) as [[_ Q]|[_ Q]]; rewrite Q in C |- *;
      cbn [snd cache events logged] in C |- *.
    + apply in_or_app. left. now apply (IH c).
    + injection C as <-. apply in_app_or in I. apply in_or_app.
      destruct I as [I|I].
      * left. unfold cached in I. destruct (cache s) as [c0|] eqn:C0;
          [now apply (IH c0)|contradiction].
      * right. right. now apply resolved_checked.
  - destruct (getDatabaseEngine_cache o s) as [Q _]. rewrite Q in C.
    pose proof (IH c m C I) as J.
    destruct (getDatabaseEngine_cases o s)
      as [(e' & Q' & _)|[(i & _ & _ & Q')|(_ & _ & Q')]]; rewrite Q';
      cbn [snd events logged selected]; try exact J;
      apply in_or_app; now left.
Qed.

(** The mysql entry cached by one resolution. *)
Lemma cached_engines_were_checked_witness :
  let l := [sqlite_entry "app.db";
            server_entry "mysql" (Some "main") "localhost"] in
  let s := after (CallCanBeUsed (sample_host (Some l))) ConfigFileProvider in
  In (EvIsOkay 1) (events s).
Proof.
  apply (cached_engines_were_checked
           (after (CallCanBeUsed
                     (sample_host
                        (Some [sqlite_entry "app.db";
                               server_entry "mysql" (Some "main") "localhost"])))
              ConfigFileProvider)
           [{| cache_id := Some "app.db";
               cache_description := Some "app.db";
               cache_details := Some "app.db";
               cache_engine :=
                 {| ref := 0; class := SqliteJsEngine "app.db" |} |};
            {| cache_id := Some "main";
               cache_description := Some "main";
               cache_details := None;
               cache_engine :=
                 {| ref := 1; class := MysqlEngine {| handle := 1 |} |} |}]
           {| cache_id := Some "main";
              cache_description := Some "main";
              cache_details := None;
              cache_engine :=
                {| ref := 1; class := MysqlEngine {| handle := 1 |} |} |}).
  - apply reachable_call, reachable_init.
  - reflexivity.
  - simpl. auto.
Defined.

(** X4: when [canBeUsedInCurrentWorkspace] returns [true] in a state the
    provider can reach, the cache it leaves holds an entry whose identity
    [getDatabaseEngine] resolves to an engine: a caller told that the
    provider is usable always has something to select. *)
Theorem usable_means_selectable (h : Host) (s : State) :
  reachable s ->
  fst (canBeUsedInCurrentWorkspace h s) = Normal true ->
  exists i m,
    lookup (snd (canBeUsedInCurrentWorkspace h s)) i = Some m /\
    fst (getDatabaseEngine (Some {| option_id := i |})
           (snd (canBeUsedInCurrentWorkspace h s))) =
      Normal (Some (cache_engine m)).
Proof.
  intros R T.
  assert (R' : reachable (after (CallCanBeUsed h) s)) by now constructor.
  simpl in R'. set (s' := snd (canBeUsedInCurrentWorkspace h s)) in *.
  assert (C : exists m c, cache s' = Some (m :: c)).
  { subst s'. destruct (canBeUsed_cases h s) as [[_ Q]|[_ Q]];
      rewrite Q in T |- *; cbn [fst snd cache] in T |- *;
      [discriminate T|].
    destruct (existsb nameless (candidates h)); [discriminate T|].
    destruct (cached s ++ _) as [|m c]; [discriminate T|]. now exists m, c. }
  destruct C as (m & c & C).
  pose proof (reachable_entries_ok s' R' _ m C (or_introl eq_refl)) as O.
  assert (Id : exists i, cache_id m = Some i).
  { unfold entry_ok in O. destruct (class (cache_engine m)).
    - destruct O as [-> _]. now eexists.
    - destruct O as (n & _ & -> & _). now eexists.
    - destruct O as (n & _ & -> & _). now eexists. }
  destruct Id as [i Id].
  assert (L : lookup s' i = Some m).
  { unfold lookup. rewrite C. simpl. unfold id_is. rewrite Id.
    now rewrite String.eqb_refl. }
  exists i, m. split; [exact L|].
  now rewrite (getDatabaseEngine_found s' {| option_id := i |} m L).
Qed.

(** One valid sqlite entry on the exported provider. *)
Lemma usable_means_selectable_witness :
  let h := sample_host (Some [sqlite_entry "app.db"]) in
  exists i m,
    lookup (snd (canBeUsedInCurrentWorkspace h ConfigFileProvider)) i = Some m /\
    fst (getDatabaseEngine (Some {| option_id := i |})
           (snd (canBeUsedInCurrentWorkspace h ConfigFileProvider))) =
      Normal (Some (cache_engine m)).
Proof.
  apply (usable_means_selectable
           (sample_host (Some [sqlite_entry "app.db"])) ConfigFileProvider).
  - apply reachable_init.
  - reflexivity.
Defined.

(** X5: an identity that [getDatabaseEngine] finds before a call of
    [canBeUsedInCurrentWorkspace] is found in the same entry after it, and
    the selected engine is left as it was: entries are only appended, and
    the lookup takes the first match, so an entry validated again under the
    same identity never replaces the engine already cached under it. *)
Theorem resolution_keeps_first_match (h : Host) (s : State) (i : string)
  (m : EngineProviderCache) :
  lookup s i = Some m ->
  let s' := snd (canBeUsedInCurrentWorkspace h s) in
  lookup s' i = Some m /\
  engine s' = engine s /\
  fst (getDatabaseEngine (Some {| option_id := i |}) s') =
    Normal (Some (cache_engine m)) /\
  fst (getDatabaseEngine (Some {| option_id := i |}) s') =
    fst (getDatabaseEngine (Some {| option_id := i |}) s).
Proof.
  intros L s'.
  assert (L' : lookup s' i = Some m /\ engine s' = engine s).
  { subst s'. destruct (canBeUsed_cases h s) as [[_ Q]|[_ Q]]; rewrite Q;
      cbn [snd]; [now split|]. split; [|reflexivity].
    unfold lookup in L |- *. cbn [cache]. unfold cached.
    destruct (cache s) as [c|]; [|discriminate L].
    now apply find_app_first. }
  destruct L' as [L' E]. split; [exact L'|]. split; [exact E|].
  rewrite (getDatabaseEngine_found s' {| option_id := i |} m L').
  rewrite (getDatabaseEngine_found s {| option_id := i |} m L).
  now split.
Qed.

(** The same sqlite entry resolved twice: the first engine is kept. *)
Lemma resolution_keeps_first_match_witness :
  let h := sample_host (Some [sqlite_entry "app.db"]) in
  let s := snd (canBeUsedInCurrentWorkspace h ConfigFileProvider) in
  let s' := snd (canBeUsedInCurrentWorkspace h s) in
  let m := {| cache_id := Some "app.db";
              cache_description := Some "app.db";
              cache_details := Some "app.db";
              cache_engine := {| ref := 0; class := SqliteJsEngine "app.db" |} |} in
  map entry_ref (cached s') = [0; 1] /\
  (lookup s' "app.db" = Some m /\
   engine s' = engine s /\
   fst (getDatabaseEngine (Some {| option_id := "app.db" |}) s') =
     Normal (Some (cache_engine m)) /\
   fst (getDatabaseEngine (Some {| option_id := "app.db" |}) s') =
     fst (getDatabaseEngine (Some {| option_id := "app.db" |}) s)).
Proof.
  split; [reflexivity|].
  apply (resolution_keeps_first_match
           (sample_host (Some [sqlite_entry "app.db"]))
           (snd (canBeUsedInCurrentWorkspace
                   (sample_host (Some [sqlite_entry "app.db"]))
                   ConfigFileProvider))
           "app.db").
  reflexivity.
Defined.

Lemma iteration_mariadb (h : Host) (c : Config) (s : State) :
  type c = "mariadb" -> falsy (name c) = false ->
  iteration h c s = iteration h (retag "mysql" c) s.
Proof.
  intros T N. unfold iteration. cbn [type name retag].
  rewrite T, N. reflexivity.
Qed.

(** X6: a ['mariadb'] descriptor that has a name is resolved exactly as the
    same descriptor tagged ['mysql']: the connector is asked for the
    ['mysql'] dialect, the engine is a [MysqlEngine], and a failure is
    reported as a MySQL connection.  The loop and the method do and return
    the same on a list and on that list with its mariadb entries retagged. *)
Theorem mariadb_resolved_as_mysql (h : Host) (l : list Config) :
  (forall c, In c l -> type c = "mariadb" -> falsy (name c) = false) ->
  (forall s, for_of h l s = for_of h (map mariadb_as_mysql l) s) /\
  (forall s,
     canBeUsedInCurrentWorkspace (with_content h (Some l)) s =
     canBeUsedInCurrentWorkspace
       (with_content h (Some (map mariadb_as_mysql l))) s).
Proof.
  intros A.
  assert (F : forall s, for_of h l s = for_of h (map mariadb_as_mysql l) s).
  { induction l as [|c l IH]; intros s; [reflexivity|]. simpl.
    assert (I : iteration h c s = iteration h (mariadb_as_mysql c) s).
    { unfold mariadb_as_mysql.
      destruct (String.eqb_spec (type c) "mariadb") as [T|_]; [|reflexivity].
      apply iteration_mariadb; [exact T|]. apply A; [now left|exact T]. }
    unfold and_then, bind. rewrite <- I.
    destruct (iteration h c s) as [[[|b]|e] s']; auto.
    apply IH. intros x Ix. apply A. now right. }
  split; [exact F|]. intros s.
  destruct l as [|c l]; [reflexivity|].
  apply canBeUsed_same_loop; [discriminate|discriminate|exact F].
Qed.

(** A named mariadb entry whose engine is not okay. *)
Lemma mariadb_resolved_as_mysql_witness :
  let l := [server_entry "mariadb" (Some "m2") "stale"] in
  let h := sample_host None in
  messages (events (snd (canBeUsedInCurrentWorkspace (with_content h (Some l))
                           ConfigFileProvider))) =
    ["The MySQL connection m2 specified in your config file is not valid."] /\
  ((forall s, for_of h l s = for_of h (map mariadb_as_mysql l) s) /\
   (forall s,
      canBeUsedInCurrentWorkspace (with_content h (Some l)) s =
      canBeUsedInCurrentWorkspace
        (with_content h (Some (map mariadb_as_mysql l))) s)).
Proof.
  split; [reflexivity|].
  apply (mariadb_resolved_as_mysql (sample_host None)
           [server_entry "mariadb" (Some "m2") "stale"]).
  intros c [<-|[]] _. reflexivity.
Defined.

(** X7: during [canBeUsedInCurrentWorkspace], [boot()] is awaited once for
    each sqlite descriptor the loop examines and never for a server
    descriptor: a server engine is cached without having been booted. *)
Theorem resolution_boots_only_sqlite (h : Host) (s : State) :
  length (boots (events (snd (canBeUsedInCurrentWorkspace h s)))) =
  length (boots (events s)) +
  length (filter is_sqlite (scanned (candidates h))).
Proof.
  destruct (canBeUsed_cases h s) as [[E Q]|[_ Q]]; rewrite Q;
    cbn [snd events logged].
  - rewrite E, boots_app, length_app. reflexivity.
  - rewrite boots_app, length_app. cbn [boots]. now rewrite boots_traces.
Qed.

(** X8: when every descriptor of a non-empty list has the name it needs and
    passes validation, [canBeUsedInCurrentWorkspace] returns [true] without
    showing any message, and appends one entry per descriptor, in the order
    of the list, under the descriptor's identity. *)
Theorem all_pass_is_silent (h : Host) (l : list Config) (s : State) :
  getConfigFileContent h = Some l ->
  l <> [] ->
  (forall c, In c l -> nameless c = false /\ passes h c = true) ->
  let r := canBeUsedInCurrentWorkspace h s in
  fst r = Normal true /\
  messages (events (snd r)) = messages (events s) /\
  map cache_id (cached (snd r)) = map cache_id (cached s) ++ map identity l /\
  length (cached (snd r)) = length (cached s) + length l.
Proof.
  intros G NE A r.
  assert (E : existsb nameless l = false)
    by (apply not_nameless_list; intros c I; now apply A).
  assert (Fl : filter (passes h) l = l)
    by (apply filter_all; intros c I; now apply A).
  subst r. rewrite (canBeUsed_run h l s G NE).
  rewrite E, (scanned_all _ E). cbn [fst snd events].
  change (cached {| engine := engine s;
                    cache := Some (match cache s with
                                   | Some c => c
                                   | None => []
                                   end ++ resolved h l (next_ref s));
                    events := events s ++ EvGetConfigFileContent ::
                                traces h l (next_ref s);
                    next_ref := next_ref s + allocated h l |})
    with (cached s ++ resolved h l (next_ref s)).
  change (match cache s with Some c => c | None => [] end) with (cached s).
  assert (Len : length (resolved h l (next_ref s)) = length l)
    by (now rewrite resolved_length, Fl).
  repeat split.
  - f_equal. apply Nat.ltb_lt. rewrite length_app, Len.
    destruct l; [contradiction|simpl; lia].
  - rewrite messages_app. cbn [messages].
    rewrite (messages_traces_pass h l _ A). apply app_nil_r.
  - now rewrite map_app, resolved_ids, Fl.
  - now rewrite length_app, Len.
Qed.

(** The two valid entries of the sample workspace. *)
Lemma all_pass_is_silent_witness :
  let l := [server_entry "postgres" (Some "pg") "localhost";
            sqlite_entry "app.db"] in
  let h := sample_host (Some l) in
  let r := canBeUsedInCurrentWorkspace h ConfigFileProvider in
  fst r = Normal true /\
  messages (events (snd r)) = messages (events ConfigFileProvider) /\
  map cache_id (cached (snd r)) =
    map cache_id (cached ConfigFileProvider) ++ map identity l /\
  length (cached (snd r)) = length (cached ConfigFileProvider) + length l.
Proof.
  apply (all_pass_is_silent
           (sample_host
              (Some [server_entry "postgres" (Some "pg") "localhost";
                     sqlite_entry "app.db"]))
           _ ConfigFileProvider).
  - reflexivity.
  - discriminate.
  - intros c [<-|[<-|[]]]; split; reflexivity.
Defined.



Lemma resolved_app (h : Host) (l1 l2 : list Config) (r : nat) :
  resolved h (l1 ++ l2) r =
  resolved h l1 r ++ resolved h l2 (r + allocated h l1).
Proof.
  revert r. induction l1 as [|c l1 IH]; intros r; simpl.
  - now rewrite Nat.add_0_r.
  - rewrite IH, Nat.add_assoc. now destruct (validated h c r).
Qed.

Lemma find_app_none {A} (f : A -> bool) (l1 l2 : list A) :
  find f l1 = None -> find f (l1 ++ l2) = find f l2.
Proof.
  induction l1 as [|a l1 IH]; simpl; [reflexivity|].
  destruct (f a); [discriminate|exact IH].
Qed.

Lemma resolved_bounds (h : Host) (l : list Config) (r : nat) :
  length (resolved h l r) <= allocated h l /\ allocated h l <= length l.
Proof.
  revert r. induction l as [|c l IH]; intros r; simpl; [lia|].
  destruct (IH (r + allocs h c)) as [I1 I2].
  assert (A : allocs h c <= 1) by (unfold allocs; destruct (class_of h c); lia).
  destruct (validated h c r) as [e|] eqn:V.
  - destruct (validated_entry _ _ _ _ V) as (_ & _ & _ & _ & A1). simpl. lia.
  - lia.
Qed.

Lemma scanned_length (l : list Config) : length (scanned l) <= length l.
Proof.
  induction l as [|c l IH]; simpl; [lia|].
  destruct (nameless c); simpl; lia.
Qed.

(** X11: whatever calls were made, two entries of the cache never share an
    engine: entries with the same engine object are the same entry, and
    every cached engine was created before the next one to come. *)
Theorem cached_engines_are_distinct (s : State)
  (c : list EngineProviderCache) (a b : EngineProviderCache) :
  reachable s ->
  cache s = Some c ->
  In a c -> In b c ->
  ref (cache_engine a) = ref (cache_engine b) ->
  a = b /\ ref (cache_engine a) < next_ref s.
Proof.
  intros R C Ia Ib E. pose proof (reachable_wf s R) as W.
  unfold cache_wf in W. rewrite C in W. destruct W as [N F]. split.
  - now apply (NoDup_map_inj entry_ref c).
  - rewrite Forall_forall in F. apply (F a Ia).
Qed.

(** The same sqlite file resolved twice: two entries, two engines. *)
Lemma cached_engines_are_distinct_witness :
  let h := sample_host (Some [sqlite_entry "app.db"]) in
  let s := after (CallCanBeUsed h) (after (CallCanBeUsed h) ConfigFileProvider) in
  let a := {| cache_id := Some "app.db";
              cache_description := Some "app.db";
              cache_details := Some "app.db";
              cache_engine := {| ref := 1; class := SqliteJsEngine "app.db" |} |} in
  length (cached s) = 2 /\ (a = a /\ ref (cache_engine a) < next_ref s).
Proof.
  split; [reflexivity|].
  apply (cached_engines_are_distinct
           (after (CallCanBeUsed (sample_host (Some [sqlite_entry "app.db"])))
              (after (CallCanBeUsed (sample_host (Some [sqlite_entry "app.db"])))
                 ConfigFileProvider))
           (cached
              (after (CallCanBeUsed (sample_host (Some [sqlite_entry "app.db"])))
                 (after (CallCanBeUsed (sample_host (Some [sqlite_entry "app.db"])))
                    ConfigFileProvider)))).
  - apply reachable_call, reachable_call, reachable_init.
  - reflexivity.
  - simpl. auto.
  - simpl. auto.
  - reflexivity.
Defined.

(** X12: among the descriptors of one list that share an identity, the first
    that passes validation wins: after a resolution on an unset cache,
    [getDatabaseEngine] by that identity returns the engine built for that
    descriptor, whatever comes after it in the list. *)
Theorem first_descriptor_wins (h : Host) (l1 : list Config) (c : Config)
  (l2 : list Config) (i : string) (s : State) :
  getConfigFileContent h = Some (l1 ++ c :: l2) ->
  existsb nameless (l1 ++ c :: l2) = false ->
  cache s = None ->
  passes h c = true ->
  identity c = Some i ->
  (forall x, In x l1 -> passes h x = true -> identity x <> Some i) ->
  exists e,
    fst (getDatabaseEngine (Some {| option_id := i |})
           (snd (canBeUsedInCurrentWorkspace h s))) = Normal (Some e) /\
    ref e = next_ref s + allocated h l1 /\
    class_of h c = Some (class e).
Proof.
  intros G E C P Id F.
  assert (NE : l1 ++ c :: l2 <> []) by (now destruct l1).
  destruct (passes_validated h c (next_ref s + allocated h l1) P) as [m V].
  destruct (validated_entry _ _ _ _ V) as (_ & I & R & K & _).
  exists (cache_engine m). split; [|split; [exact R|exact K]].
  rewrite (getDatabaseEngine_found _ {| option_id := i |} m); [reflexivity|].
  rewrite (canBeUsed_run h _ s G NE). unfold lookup. cbn [snd cache option_id].
  rewrite C, (scanned_all _ E), resolved_app. simpl. rewrite V.
  rewrite find_app_none.
  - simpl. unfold id_is. rewrite I, Id. now rewrite String.eqb_refl.
  - apply find_id_is_none. intros x Ix Ex.
    assert (J : In (cache_id x) (map cache_id (resolved h l1 (next_ref s))))
      by now apply in_map.
    rewrite resolved_ids in J. apply in_map_iff in J.
    destruct J as (d & Ed & Jd). apply filter_In in Jd. destruct Jd as [Jd Pd].
    apply (F d Jd Pd). now rewrite Ed.
Qed.

(** Two mysql entries named [main]: the reachable one is listed first. *)
Lemma first_descriptor_wins_witness :
  let c := server_entry "mysql" (Some "main") "localhost" in
  let l1 := [server_entry "mysql" (Some "main") "nowhere"] in
  let l2 := [server_entry "postgres" (Some "main") "localhost"] in
  let h := sample_host (Some (l1 ++ c :: l2)) in
  exists e,
    fst (getDatabaseEngine (Some {| option_id := "main" |})
           (snd (canBeUsedInCurrentWorkspace h ConfigFileProvider))) =
      Normal (Some e) /\
    ref e = next_ref ConfigFileProvider + allocated h l1 /\
    class_of h c = Some (class e).
Proof.
  apply (first_descriptor_wins
           (sample_host
              (Some ([server_entry "mysql" (Some "main") "nowhere"] ++
                     server_entry "mysql" (Some "main") "localhost" ::
                     [server_entry "postgres" (Some "main") "localhost"])))
           [server_entry "mysql" (Some "main") "nowhere"]
           (server_entry "mysql" (Some "main") "localhost")
           [server_entry "postgres" (Some "main") "localhost"]
           "main" ConfigFileProvider).
  - reflexivity.
  - reflexivity.
  - reflexivity.
  - reflexivity.
  - reflexivity.
  - intros x [<-|[]] P. discriminate P.
Defined.

(** X13: one call of [canBeUsedInCurrentWorkspace] creates at most one
    engine per descriptor of the list, and at least one per entry it adds
    to the cache: an engine that fails validation is created and dropped,
    and none is created beyond the descriptors. *)
Theorem engines_created_bounds (h : Host) (s : State) :
  let s' := snd (canBeUsedInCurrentWorkspace h s) in
  length (cached s') - length (cached s) <= next_ref s' - next_ref s /\
  next_ref s' - next_ref s <= length (candidates h).
Proof.
  destruct (canBeUsed_cases h s) as [[E Q]|[_ Q]]; cbv zeta; rewrite Q;
    unfold logged; cbn [snd next_ref].
  - unfold cached. cbn [cache]. lia.
  - unfold cached at 1. cbn [cache]. rewrite length_app.
    destruct (resolved_bounds h (scanned (candidates h)) (next_ref s)) as [B1 B2].
    pose proof (scanned_length (candidates h)). lia.
Qed.
